(** * NFL pick'em dashboard: spread rebinning and per-user metrics

    A shallow embedding of [PoolHost_dashboard.py] (the rebinning of
    spread statistics, the per-user metric derivation, the pool-wide
    baselines) and of the game-flag computation of [tranform_data.py].

    Numbers.  Python and pandas compute on IEEE doubles; here a finite
    number is an exact rational ([Q]) and a missing one (NaN, [None])
    is the [None] of an [option].  Spreads are multiples of one half
    and percentages are compared against literals only, so the
    comparisons modelled below decide the same way on the doubles.
    Integer columns are [Z]. *)

From Stdlib Require Import ZArith QArith Qround Qabs Qminmax.
From Stdlib Require Import List Sorted Bool String Ascii DecimalString Lia Lqa.
Import ListNotations.

Local Open Scope Q_scope.

(* ================================================================= *)
(** ** Numeric helpers *)

Module Num.

(** [a < b] as a boolean. *)
Definition Qlt_bool (a b : Q) : bool := negb (Qle_bool b a).

(** Rounding to the nearest integer, ties to the even one (what
    [numpy.rint] does, and through it [Series.round]). *)
Definition rint (x : Q) : Z :=
  let f := Qfloor x in
  let d := x - inject_Z f in
  if Qlt_bool d (1 # 2) then f
  else if Qlt_bool (1 # 2) d then (f + 1)%Z
  else if Z.even f then f else (f + 1)%Z.

(** [Series.round(1)]: one decimal place. *)
Definition round1 (x : Q) : Q := Qred (rint (x * 10) # 10).

(** Floor division [x // w] of two floats: a float holding an
    integer. *)
Definition floordiv (x w : Q) : Q := inject_Z (Qfloor (x / w)).

(** Division that can fail: a zero divisor gives no number (pandas
    yields [inf] or [NaN], plain Python raises). *)
Definition fdiv (a b : Q) : option Q :=
  if Qeq_bool b 0 then None else Some (a / b).

(** [Series.replace(0, 1)] on one integer entry. *)
Definition replace_0_1 (z : Z) : Z := if (z =? 0)%Z then 1%Z else z.

Definition show_nat_like (z : Z) : string :=
  NilZero.string_of_uint (N.to_uint (Z.to_N z)).

(** The format [{x:+.1f}]: sign, integer part, one decimal. *)
Definition fmt_signed_1f (x : Q) : string :=
  let t := rint (x * 10) in
  let a := Z.abs t in
  ((if (t <? 0)%Z then "-" else "+")
     ++ show_nat_like (a / 10) ++ "." ++ show_nat_like (a mod 10))%string.

Fixpoint Qsum (l : list Q) : Q :=
  match l with
  | [] => 0
  | x :: t => x + Qsum t
  end.

Fixpoint Zsum (l : list Z) : Z :=
  match l with
  | [] => 0%Z
  | x :: t => (x + Zsum t)%Z
  end.

(** [Series.mean()] of a non-empty column. *)
Definition mean (l : list Q) : Q := Qsum l / inject_Z (Z.of_nat (List.length l)).

End Num.

(* ================================================================= *)
(** ** Aggregation / rebinning engine ([rebin_data]) *)

Module Rebin.
Import Num.

(** One row of the [get_spread_stats] result after the spread range
    filter.  The filter compares [home_spread.round(1)] with the slider
    bounds, which is false on a missing spread, so every row that
    reaches [rebin_data] carries a number. *)
Record row := mkRow {
  home_spread : Q;
  total_games : Z;
  total_covers : Z;
  total_home_picks : Z;
  total_picks_made : Z
}.

(** The options of the "Bin Size" slider. *)
Definition bin_size_options : list Q :=
  [1 # 2; 1; 3 # 2; 2; 5 # 2; 3; 7 # 2; 4; 5].

(** [((df['home_spread'].round(1) // bin_size) * bin_size).round(1)] *)
Definition bin_floor (bin_size : Q) (r : row) : Q :=
  round1 (floordiv (round1 (home_spread r)) bin_size * bin_size).

(** One group of [df.groupby('bin_floor').agg(...)]: the key, the four
    summed counters and the least spread of the group. *)
Record group := mkGroup {
  g_bin_floor : Q;
  g_total_games : Z;
  g_total_covers : Z;
  g_total_home_picks : Z;
  g_total_picks_made : Z;
  g_home_spread : Q
}.

Definition group_of (k : Q) (r : row) : group :=
  mkGroup k (total_games r) (total_covers r) (total_home_picks r)
          (total_picks_made r) (home_spread r).

Definition group_add (g : group) (r : row) : group :=
  mkGroup (g_bin_floor g)
          (g_total_games g + total_games r)
          (g_total_covers g + total_covers r)
          (g_total_home_picks g + total_home_picks r)
          (g_total_picks_made g + total_picks_made r)
          (Qmin (g_home_spread g) (home_spread r)).

(** Accumulate one row into the groups, which are kept in ascending
    key order as [groupby] returns them. *)
Fixpoint upsert (k : Q) (r : row) (acc : list group) : list group :=
  match acc with
  | [] => [group_of k r]
  | g :: rest =>
      match k ?= g_bin_floor g with
      | Eq => group_add g r :: rest
      | Lt => group_of k r :: g :: rest
      | Gt => g :: upsert k r rest
      end
  end.

Definition groupby (bin_size : Q) (df : list row) : list group :=
  fold_left (fun acc r => upsert (bin_floor bin_size r) r acc) df [].

(** An output row of [rebin_data]. *)
Record bucket := mkBucket {
  grp : group;
  spread_bin : string;
  pct_picks_home : option Q;
  pct_games_home_covered : option Q
}.

Definition label (bin_size : Q) (g : group) : string :=
  if Qeq_bool bin_size (1 # 2) then fmt_signed_1f (g_bin_floor g)
  else (fmt_signed_1f (g_bin_floor g) ++ " to "
          ++ fmt_signed_1f (g_bin_floor g + bin_size - (1 # 10)))%string.

(** [(num / den.replace(0, 1)) * 100] *)
Definition pct (num den : Z) : option Q :=
  option_map (fun q => q * 100)
             (fdiv (inject_Z num) (inject_Z (replace_0_1 den))).

Definition finish (bin_size : Q) (g : group) : bucket :=
  mkBucket g (label bin_size g)
           (pct (g_total_home_picks g) (g_total_picks_made g))
           (pct (g_total_covers g) (g_total_games g)).

Definition rebin_data (df : list row) (bin_size : Q) : list bucket :=
  match df with
  | [] => []
  | _ => map (finish bin_size) (groupby bin_size df)
  end.

(** The key order of the groups. *)
Definition key_lt (a b : group) : Prop := g_bin_floor a < g_bin_floor b.

(** Groups in strictly ascending key order. *)
Definition ascending (l : list group) : Prop := StronglySorted key_lt l.

(** The rows of a frame that fall in the bucket of key [k]. *)
Definition members (w k : Q) (df : list row) : list row :=
  filter (fun r => Qeq_bool (bin_floor w r) k) df.

End Rebin.

(* ================================================================= *)
(** ** Ingestion: the game record written by [upload_pool_data] *)

Module Ingest.

(** A spreadsheet cell as [float()] sees it: nothing, a number, or a
    value on which the conversion raises. *)
Inductive cell :=
| Blank
| Numeric (q : Q)
| Unreadable.

(** [float(c) if c is not None else d]; [None] when it raises. *)
Definition to_float (d : Q) (c : cell) : option Q :=
  match c with
  | Blank => Some d
  | Numeric q => Some q
  | Unreadable => None
  end.

(** [int(x)] of a float: truncation towards zero. *)
Definition int_of_float (q : Q) : Z := Z.quot (Qnum q) (Zpos (Qden q)).

(** [int(float(c)) if c is not None else 0] *)
Definition to_score (c : cell) : option Z :=
  match c with
  | Blank => Some 0%Z
  | Numeric q => Some (int_of_float q)
  | Unreadable => None
  end.

Record game_payload := mkPayload {
  season : Z;
  week : Z;
  home_team_id : string;
  away_team_id : string;
  home_score : Z;
  away_score : Z;
  home_spread : Q;
  home_cover : bool;
  tie_spread : bool;
  ot : bool;
  mnf : bool
}.

(** The body of the game loop of [upload_pool_data] for one column:
    [None] when the [try] block raises and the column is skipped. *)
Definition upload_pool_data_game
    (season_year week_num : Z) (home_team away_team : string)
    (home_score_cell home_spread_cell away_score_cell : cell)
    (ot_val : option string) (is_mnf : bool) : option game_payload :=
  match to_score home_score_cell, to_score away_score_cell,
        to_float 0 home_spread_cell with
  | Some h_score, Some a_score, Some spread =>
      let adjusted_home := inject_Z h_score + spread in
      let tie_spread := Qeq_bool adjusted_home (inject_Z a_score) in
      let home_cover := Num.Qlt_bool (inject_Z a_score) adjusted_home in
      let is_ot := match ot_val with
                   | Some s => String.eqb s "OT"
                   | None => false
                   end in
      Some (mkPayload season_year week_num home_team away_team
                      h_score a_score spread home_cover tie_spread
                      is_ot is_mnf)
  | _, _, _ => None
  end.

End Ingest.

(* ================================================================= *)
(** ** Per-user performance data ([get_user_performance_data]) *)

Module Perf.
Import Num.

(** A row of the [game] table, with the columns the query selects. *)
Record game := mkGame {
  game_id : Z;
  home_team_id : string;
  away_team_id : string;
  home_cover : bool;
  tie_spread : bool;
  home_score : Z;
  away_score : Z;
  home_spread : Q;
  mnf : bool;
  week : Z;
  season : Z
}.

(** The row the [game] table holds after the upsert of a payload; the
    store assigns the identifier. *)
Definition stored (gid : Z) (p : Ingest.game_payload) : game :=
  mkGame gid (Ingest.home_team_id p) (Ingest.away_team_id p)
         (Ingest.home_cover p) (Ingest.tie_spread p)
         (Ingest.home_score p) (Ingest.away_score p)
         (Ingest.home_spread p) (Ingest.mnf p) (Ingest.week p)
         (Ingest.season p).

(** A row of the [pick] table. *)
Record pick := mkPick {
  p_username : string;
  p_game_id : Z;
  p_pick_home : bool;
  p_pick_made : bool;
  p_pick_overwritten : bool;
  p_tot_if_picked : option Z
}.

(** A row of the [get_game_consensus] result. *)
Record consensus := mkConsensus {
  c_game_id : Z;
  c_total_picks : Z;
  c_home_pick_pct : option Q
}.

(** A row of the [get_mnf_medians] result. *)
Record median := mkMedian {
  m_game_id : Z;
  m_pool_median_total : option Q
}.

(** The remote store: two tables and two remote procedures.  A remote
    call answers [None] when it raises. *)
Record backend := mkBackend {
  table_game : list game;
  table_pick : list pick;
  get_game_consensus : list Z -> option (list consensus);
  get_mnf_medians : list Z -> option (list median)
}.

Definition Median_Picker : string := " Median Picker".

Definition mem_Z (x : Z) (l : list Z) : bool := existsb (Z.eqb x) l.

Definition is_empty {A} (l : list A) : bool :=
  match l with [] => true | _ => false end.

(** [pd.merge(left, right, on='game_id', how='left')]: the left rows
    in order, each once per matching right row, or once with nothing
    when no right row matches. *)
Definition merge_left {A B} (ka : A -> Z) (kb : B -> Z)
    (left : list A) (right : list B) : list (A * option B) :=
  flat_map (fun a =>
              match filter (fun b => (kb b =? ka a)%Z) right with
              | [] => [(a, None)]
              | ms => map (fun b => (a, Some b)) ms
              end) left.

(** [pd.merge(left, right, on='game_id', how='inner')] *)
Definition merge_inner {A B} (ka : A -> Z) (kb : B -> Z)
    (left : list A) (right : list B) : list (A * B) :=
  flat_map (fun a =>
              map (fun b => (a, b))
                  (filter (fun b => (kb b =? ka a)%Z) right)) left.

(** [Series.fillna(d)] on one entry. *)
Definition fillna (d : Q) (x : option Q) : Q :=
  match x with Some v => v | None => d end.

(** A row of [df_picks] with its selected columns; the picks of a
    named user carry no [username] column. *)
Record df_pick := mkDfPick {
  dp_game_id : Z;
  dp_pick_home : bool;
  dp_pick_made : bool;
  dp_tot_if_picked : option Q;
  dp_username : option string
}.

(** A row of the frame [get_user_performance_data] returns. *)
Record perf_row := mkPerfRow {
  the_game : game;
  actual_total : Z;
  pick_home : bool;
  pick_made : bool;
  tot_if_picked : option Q;
  pool_median_total : option Q;
  home_pick_pct : option Q
}.

Definition get_mnf_pool_data (be : backend) (selected_seasons : list Z)
  : list median :=
  match get_mnf_medians be selected_seasons with
  | Some df => df
  | None => []
  end.

(** The [game] query: the selected seasons, no tie against the
    spread. *)
Definition games_query (be : backend) (selected_seasons : list Z)
  : list game :=
  filter (fun g => mem_Z (season g) selected_seasons
                   && Bool.eqb (tie_spread g) false)
         (table_game be).

(** The [pick] query for a named user. *)
Definition picks_query (be : backend) (user_id : string)
    (target_game_ids : list Z) : list pick :=
  filter (fun p => String.eqb (p_username p) user_id
                   && mem_Z (p_game_id p) target_game_ids
                   && Bool.eqb (p_pick_made p) true
                   && Bool.eqb (p_pick_overwritten p) false)
         (table_pick be).

Definition fetch_consensus (be : backend) (target_game_ids : list Z)
  : list consensus :=
  match get_game_consensus be target_game_ids with
  | Some df => df
  | None => []
  end.

(** The picks of the synthetic Median Picker (the branch
    [user_id == " Median Picker"], consensus not empty). *)
Definition median_picks (df_games : list game)
    (df_consensus : list consensus) (df_pool_medians : list median)
  : list df_pick :=
  let merged := merge_left game_id c_game_id df_games df_consensus in
  let picks :=
    map (fun gc : game * option consensus =>
           let pct := fillna 50 (match snd gc with
                                 | Some c => c_home_pick_pct c
                                 | None => None
                                 end) in
           (game_id (fst gc), Qlt_bool 50 pct)) merged in
  if is_empty df_pool_medians then
    map (fun p : Z * bool =>
           mkDfPick (fst p) (snd p) true None (Some Median_Picker)) picks
  else
    map (fun pm : (Z * bool) * option median =>
           mkDfPick (fst (fst pm)) (snd (fst pm)) true
                    (match snd pm with
                     | Some m => m_pool_median_total m
                     | None => None
                     end)
                    (Some Median_Picker))
        (merge_left fst m_game_id picks df_pool_medians).

Definition named_picks (picks : list pick) : list df_pick :=
  map (fun p => mkDfPick (p_game_id p) (p_pick_home p) (p_pick_made p)
                         (option_map inject_Z (p_tot_if_picked p)) None)
      picks.

(** The tail of the function, from [merged = pd.merge(df_games,
    df_picks, ...)] on. *)
Definition join_all (is_median : bool) (df_games : list game)
    (df_picks : list df_pick) (df_consensus : list consensus)
    (df_pool_medians : list median) : list perf_row :=
  let merged := merge_inner game_id dp_game_id df_games df_picks in
  let with_median : list ((game * df_pick) * option Q) :=
    if negb is_median && negb (is_empty df_pool_medians) then
      map (fun x : (game * df_pick) * option median =>
             (fst x, match snd x with
                     | Some m => m_pool_median_total m
                     | None => None
                     end))
          (merge_left (fun gp : game * df_pick => game_id (fst gp))
                      m_game_id merged df_pool_medians)
    else
      map (fun gp : game * df_pick => (gp, dp_tot_if_picked (snd gp)))
          merged in
  let with_pct : list (((game * df_pick) * option Q) * option Q) :=
    if negb (is_empty df_consensus) then
      map (fun x : ((game * df_pick) * option Q) * option consensus =>
             (fst x, match snd x with
                     | Some c => c_home_pick_pct c
                     | None => None
                     end))
          (merge_left
             (fun y : (game * df_pick) * option Q => game_id (fst (fst y)))
             c_game_id with_median df_consensus)
    else
      map (fun y => (y, Some 50)) with_median in
  map (fun z : ((game * df_pick) * option Q) * option Q =>
         let g := fst (fst (fst z)) in
         let p := snd (fst (fst z)) in
         mkPerfRow g (home_score g + away_score g)%Z
                   (dp_pick_home p) (dp_pick_made p) (dp_tot_if_picked p)
                   (snd (fst z)) (snd z))
      with_pct.

Definition get_user_performance_data (supabase_client : option backend)
    (user_id : string) (selected_seasons : list Z) : list perf_row :=
  match supabase_client with
  | None => []
  | Some be =>
      let df_games := games_query be selected_seasons in
      if is_empty df_games then []
      else
        let df_pool_medians := get_mnf_pool_data be selected_seasons in
        let target_game_ids := map game_id df_games in
        if String.eqb user_id Median_Picker then
          let df_consensus := fetch_consensus be target_game_ids in
          if is_empty df_consensus then []
          else
            join_all true df_games
                     (median_picks df_games df_consensus df_pool_medians)
                     df_consensus df_pool_medians
        else
          let picks := picks_query be user_id target_game_ids in
          if is_empty picks then []
          else
            join_all false df_games (named_picks picks)
                     (fetch_consensus be target_game_ids) df_pool_medians
  end.

End Perf.

(* ================================================================= *)
(** ** Per-user metric derivation (the "User Performance" tab) *)

Module Tab2.
Import Num Perf.

(** [df['user_won'] = df['pick_home'] == df['home_cover']] *)
Definition user_won (r : perf_row) : bool :=
  Bool.eqb (pick_home r) (home_cover (the_game r)).

(** [(df['home_score'] + df['home_spread']) - df['away_score']] *)
Definition raw_margin (r : perf_row) : Q :=
  (inject_Z (home_score (the_game r)) + home_spread (the_game r))
  - inject_Z (away_score (the_game r)).

(** [x['raw_margin'] if x['pick_home'] else -x['raw_margin']] *)
Definition user_margin (r : perf_row) : Q :=
  if pick_home r then raw_margin r else - raw_margin r.

Inductive herd_status :=
| Herd_Chalk
| Contrarian_Lone_Wolf
| Neutral.

Definition herd_label (h : herd_status) : string :=
  match h with
  | Herd_Chalk => "Herd (Chalk)"
  | Contrarian_Lone_Wolf => "Contrarian (Lone Wolf)"
  | Neutral => "Neutral"
  end.

(** [get_herd_status(row)].  On a missing [home_pick_pct] every
    comparison is false and both branches fall through to Neutral. *)
Definition get_herd_status (r : perf_row) : herd_status :=
  match home_pick_pct r with
  | None => Neutral
  | Some pct =>
      let p_home := if Qlt_bool 1 pct then pct / 100 else pct in
      if pick_home r then
        if Qle_bool (60 # 100) p_home then Herd_Chalk
        else if Qle_bool p_home (40 # 100) then Contrarian_Lone_Wolf
        else Neutral
      else
        if Qle_bool p_home (40 # 100) then Herd_Chalk
        else if Qle_bool (60 # 100) p_home then Contrarian_Lone_Wolf
        else Neutral
  end.

Inductive luck_bucket :=
| Blowout_Loss
| Bad_Beat
| Lucky_Win
| Convincing_Win.

(** The bucket names as displayed; [shown] is the rendering of the
    threshold. *)
Definition luck_label (shown : string) (b : luck_bucket) : string :=
  match b with
  | Convincing_Win => "Convincing Win (>" ++ shown ++ " pts)"
  | Lucky_Win => "Lucky Win (≤ " ++ shown ++ " pts)"
  | Bad_Beat => "Bad Beat (≤ " ++ shown ++ " pts)"
  | Blowout_Loss => "Blowout Loss (>" ++ shown ++ " pts)"
  end%string.

(** [classify_luck(margin)], closed over [luck_threshold]. *)
Definition classify_luck (luck_threshold margin : Q) : luck_bucket :=
  if Qlt_bool luck_threshold margin then Convincing_Win
  else if Qlt_bool 0 margin then Lucky_Win
  else if Qle_bool (- luck_threshold) margin then Bad_Beat
  else Blowout_Loss.

(** *** MNF totals *)

(** A row admitted to [stats_df], with the three numbers present. *)
Record stat := mkStat {
  s_tot_if_picked : Q;
  s_pool_median_total : Q;
  s_actual_total : Z
}.

(** [df_mnf[(actual_total > 0) & tot_if_picked.notnull()
           & pool_median_total.notnull()]] over [df[df['mnf'] == True]] *)
Definition stats_df (df : list perf_row) : list stat :=
  flat_map (fun r =>
              if mnf (the_game r) && (0 <? actual_total r)%Z then
                match tot_if_picked r, pool_median_total r with
                | Some t, Some m => [mkStat t m (actual_total r)]
                | _, _ => []
                end
              else []) df.

Definition abs_err_user (s : stat) : Q :=
  Qabs (s_tot_if_picked s - inject_Z (s_actual_total s)).

Definition abs_err_median (s : stat) : Q :=
  Qabs (s_pool_median_total s - inject_Z (s_actual_total s)).

Definition bias_user (s : stat) : Q :=
  s_tot_if_picked s - inject_Z (s_actual_total s).

(** [((mae_median - mae_user) / mae_median) * 100 if mae_median > 0
     else 0.0]; [None] would be a division by zero. *)
Definition edge_pct (mae_user mae_median : Q) : option Q :=
  if Qlt_bool 0 mae_median then
    option_map (fun q => q * 100) (fdiv (mae_median - mae_user) mae_median)
  else Some 0.

Record summary := mkSummary {
  mae_user : Q;
  mae_median : Q;
  me_user : Q;
  edge : Q;
  wins : nat;
  losses : nat;
  ties : nat
}.

Inductive mnf_result :=
| Not_enough_games
| Division_by_zero
| Summary (s : summary).

Definition count {A} (f : A -> bool) (l : list A) : nat :=
  List.length (filter f l).

(** The summary block of section 5 of the tab. *)
Definition mnf_summary (df : list perf_row) : mnf_result :=
  match stats_df df with
  | [] => Not_enough_games
  | st =>
      let mu := mean (map abs_err_user st) in
      let mm := mean (map abs_err_median st) in
      match edge_pct mu mm with
      | None => Division_by_zero
      | Some e =>
          Summary
            (mkSummary mu mm (mean (map bias_user st)) e
               (count (fun s => Qlt_bool (abs_err_user s) (abs_err_median s)) st)
               (count (fun s => Qlt_bool (abs_err_median s) (abs_err_user s)) st)
               (count (fun s => Qeq_bool (abs_err_user s) (abs_err_median s)) st))
      end
  end.

End Tab2.

(* ================================================================= *)
(** ** Pool-wide herd baselines *)

Module Baseline.
Import Num Tab2.

(** The three running totals keyed by category. *)
Record counts := mkCounts {
  herd : Q;
  contrarian : Q;
  neutral : Q
}.

Definition zero : counts := mkCounts 0 0 0.


(** [counts[k] += v] *)
Definition add (k : herd_status) (v : Q) (c : counts) : counts :=
  match k with
  | Herd_Chalk => mkCounts (herd c + v) (contrarian c) (neutral c)
  | Contrarian_Lone_Wolf => mkCounts (herd c) (contrarian c + v) (neutral c)
  | Neutral => mkCounts (herd c) (contrarian c) (neutral c + v)
  end.

(** The chain [... if p > 60 ... elif p < 40 ... else ...] both
    baselines apply to each side. *)
Definition side_category (p : Q) : herd_status :=
  if Qlt_bool 60 p then Herd_Chalk
  else if Qlt_bool p 40 then Contrarian_Lone_Wolf
  else Neutral.

(** A row of [all_consensus]. *)
Record consensus_row := mkRow {
  total_picks : Z;
  home_pick_pct : Q
}.

(** The loop of [get_global_herd_distribution]: the counts and
    [total_pool_picks]. *)
Definition herd_loop (all_consensus : list consensus_row) : counts * Z :=
  fold_left
    (fun (acc : counts * Z) row =>
       let n_picks := inject_Z (total_picks row) in
       let p_home := home_pick_pct row in
       let p_away := 100 - p_home in
       let c1 := add (side_category p_home) (n_picks * (p_home / 100))
                     (fst acc) in
       let c2 := add (side_category p_away) (n_picks * (p_away / 100)) c1 in
       (c2, (snd acc + total_picks row)%Z))
    all_consensus (zero, 0%Z).

(** [get_global_herd_distribution], from the collected consensus rows
    on; [None] is the empty dictionary. *)
Definition get_global_herd_distribution (all_consensus : list consensus_row)
  : option counts :=
  match all_consensus with
  | [] => None
  | _ =>
      let (c, total_pool_picks) := herd_loop all_consensus in
      if (0 <? total_pool_picks)%Z then
        let t := inject_Z total_pool_picks in
        Some (mkCounts (herd c / t) (contrarian c / t) (neutral c / t))
      else None
  end.

(** A row of [df_global_stats]. *)
Record global_row := mkGlobal {
  home_margin : option Q;
  g_home_pick_pct : option Q
}.

Record herd_acc := mkAcc {
  pool_herd_counts : counts;
  pool_herd_wins : counts;
  total_global_herd_weight : Q
}.

(** The loop over [df_global_stats.dropna(subset=['home_margin'])] in
    section 4 of the tab. *)
Definition pool_herd_loop (df_global_stats : list global_row) : herd_acc :=
  fold_left
    (fun acc row =>
       match home_margin row with
       | None => acc
       | Some hm =>
           let p_home := Perf.fillna 50 (g_home_pick_pct row) in
           let p_away := 100 - p_home in
           let home_covers := Qlt_bool 0 hm in
           let cat_home := side_category p_home in
           let cat_away := side_category p_away in
           mkAcc (add cat_away p_away
                      (add cat_home p_home (pool_herd_counts acc)))
                 (if home_covers
                  then add cat_home p_home (pool_herd_wins acc)
                  else add cat_away p_away (pool_herd_wins acc))
                 (total_global_herd_weight acc + 100)
       end)
    df_global_stats (mkAcc zero zero 0).



End Baseline.

(* ================================================================= *)
(** ** The herd rule as the specification words it *)

Module SpecRule.
Import Tab2.

(** The pool's percentage, on the 0-100 scale, choosing the side the
    participant picked. *)
Definition picked_share (pick_home : bool) (home_pick_pct : Q) : Q :=
  if pick_home then home_pick_pct else 100 - home_pick_pct.

(** [p >= 60] is Herd, [p <= 40] is Contrarian, otherwise Neutral. *)
Definition herd_by_share (p : Q) : herd_status :=
  if Qle_bool 60 p then Herd_Chalk
  else if Qle_bool p 40 then Contrarian_Lone_Wolf
  else Neutral.

End SpecRule.

(* ================================================================= *)
(** ** Sample data *)

Module Samples.
Import Perf.

(** Buffalo 27, Miami 20, Buffalo favoured by three. *)
Definition sample_payload : Ingest.game_payload :=
  Ingest.mkPayload 2024 1 "BUF" "MIA" 27 20 (-3) true false false false.

Definition sample_game : game := stored 1 sample_payload.

(** Kansas City 24, Denver 21 at minus three: a tie against the
    spread. *)
Definition tie_payload : Ingest.game_payload :=
  Ingest.mkPayload 2024 1 "KC" "DEN" 24 21 (-3) false true false false.

Definition tie_game : game := stored 2 tie_payload.

Definition even_game : game :=
  mkGame 3 "DAL" "NYG" true false 30 10 (-7) false 1 2024.

Definition lone_game : game :=
  mkGame 5 "GB" "CHI" false false 10 17 (-3) false 1 2024.

Definition mnf_game : game :=
  mkGame 4 "SF" "SEA" true false 24 20 (-3) true 1 2024.

(** A row of the performance frame with a given pick and share. *)
Definition sample_row (pick : bool) (pct : option Q) : perf_row :=
  mkPerfRow sample_game 47 pick true None None pct.

Definition mnf_row : perf_row :=
  mkPerfRow mnf_game 44 true true (Some 46) (Some 47) (Some 55).

(** The row the frame of user alice starts with. *)
Definition alice_row : perf_row :=
  mkPerfRow sample_game 47 true true None None (Some 70).

Definition sample_backend : backend :=
  mkBackend
    [sample_game; tie_game; even_game; lone_game]
    [mkPick "alice" 1 true true false None;
     mkPick "alice" 2 true true false None;
     mkPick "alice" 3 false true false None]
    (fun _ => Some [mkConsensus 1 10 (Some 70); mkConsensus 3 10 (Some 50)])
    (fun _ => Some []).



End Samples.

(* ================================================================= *)
(** ** The "Spread Analysis" tab: slider range, filter and headline *)

Module Tab1.
Import Num.

(** A row of [df_raw].  [pd.to_numeric(errors='coerce')] leaves a
    missing spread where the store had none. *)
Record raw_row := mkRaw {
  home_spread : option Q;
  total_games : Z;
  total_covers : Z;
  total_home_picks : Z;
  total_picks_made : Z
}.

(** The spreads present in the column. *)
Definition spreads (df : list raw_row) : list Q :=
  flat_map (fun r => match home_spread r with
                     | Some s => [s]
                     | None => []
                     end) df.

(** [Series.min()] and [Series.max()], which skip the missing values
    and are themselves missing on a column without any value. *)
Definition series_min (l : list Q) : option Q :=
  match l with
  | [] => None
  | x :: t => Some (fold_left Qmin t x)
  end.

Definition series_max (l : list Q) : option Q :=
  match l with
  | [] => None
  | x :: t => Some (fold_left Qmax t x)
  end.

(** [get_spread_range_from_data(df)]; [None] when [math.floor] raises
    on a missing minimum. *)
Definition get_spread_range_from_data (df : list raw_row) : option (Q * Q) :=
  match df with
  | [] => Some (-10, 10)
  | _ =>
      match series_min (spreads df), series_max (spreads df) with
      | Some min_s, Some max_s =>
          let min_clean := inject_Z (Qfloor (min_s * 2)) / 2 in
          let max_clean := inject_Z (Qceiling (max_s * 2)) / 2 in
          Some (min_clean, max_clean)
      | _, _ => None
      end
  end.

Definition to_row (s : Q) (r : raw_row) : Rebin.row :=
  Rebin.mkRow s (total_games r) (total_covers r) (total_home_picks r)
              (total_picks_made r).

(** [df_raw[(home_spread.round(1) >= spread_filter[0])
            & (home_spread.round(1) <= spread_filter[1])]]; both
    comparisons are false on a missing spread. *)
Definition df_filtered (spread_filter : Q * Q) (df_raw : list raw_row)
  : list Rebin.row :=
  flat_map (fun r =>
              match home_spread r with
              | Some s =>
                  if Qle_bool (fst spread_filter) (round1 s)
                     && Qle_bool (round1 s) (snd spread_filter)
                  then [to_row s r] else []
              | None => []
              end) df_raw.

Definition total_picks (df : list Rebin.row) : Z :=
  Zsum (map Rebin.total_picks_made df).



(** The rows that carry a spread. *)
Definition with_spread (df_raw : list raw_row) : list Rebin.row :=
  flat_map (fun r => match home_spread r with
                     | Some s => [to_row s r]
                     | None => []
                     end) df_raw.

End Tab1.

(* ================================================================= *)
(** ** More of the "User Performance" tab *)

Module Tab2b.
Import Num Perf Tab2.

(** *** Team breakdown *)

Record team_stat := mkTeamStat {
  for_win : Z;
  for_loss : Z;
  against_win : Z;
  against_loss : Z
}.

Definition no_stat : team_stat := mkTeamStat 0 0 0 0.

Definition inc_for_win (s : team_stat) : team_stat :=
  mkTeamStat (for_win s + 1) (for_loss s) (against_win s) (against_loss s).
Definition inc_for_loss (s : team_stat) : team_stat :=
  mkTeamStat (for_win s) (for_loss s + 1) (against_win s) (against_loss s).
Definition inc_against_win (s : team_stat) : team_stat :=
  mkTeamStat (for_win s) (for_loss s) (against_win s + 1) (against_loss s).
Definition inc_against_loss (s : team_stat) : team_stat :=
  mkTeamStat (for_win s) (for_loss s) (against_win s) (against_loss s + 1).

(** [set(df['home_team_id']) | set(df['away_team_id'])], as a list
    without repetition. *)
Definition all_teams (df : list perf_row) : list string :=
  nodup string_dec (map (fun r => home_team_id (the_game r)) df
                    ++ map (fun r => away_team_id (the_game r)) df).

(** The dictionary [team_stats], one entry per team. *)
Definition stats_dict := list (string * team_stat).

(** [d[t] = f(d[t])] on a dictionary that holds [t]. *)
Definition update (t : string) (f : team_stat -> team_stat) (d : stats_dict)
  : stats_dict :=
  map (fun kv => if String.eqb (fst kv) t then (fst kv, f (snd kv)) else kv) d.

(** The body of the loop over [df.iterrows()]. *)
Definition team_step (d : stats_dict) (r : perf_row) : stats_dict :=
  let u_won := user_won r in
  let h_team := home_team_id (the_game r) in
  let a_team := away_team_id (the_game r) in
  if pick_home r then
    update a_team (if u_won then inc_against_win else inc_against_loss)
           (update h_team (if u_won then inc_for_win else inc_for_loss) d)
  else
    update h_team (if u_won then inc_against_win else inc_against_loss)
           (update a_team (if u_won then inc_for_win else inc_for_loss) d).

Definition team_stats (df : list perf_row) : stats_dict :=
  fold_left team_step df (map (fun t => (t, no_stat)) (all_teams df)).

Definition total_games (s : team_stat) : Z :=
  (for_win s + for_loss s + against_win s + against_loss s)%Z.
Definition user_wins (s : team_stat) : Z := (for_win s + against_win s)%Z.
Definition team_covers (s : team_stat) : Z := (for_win s + against_loss s)%Z.
Definition times_picked_for (s : team_stat) : Z := (for_win s + for_loss s)%Z.

(** [df_user_stats[df_user_stats['total_games'] > 0]] *)
Definition df_user_stats (df : list perf_row) : stats_dict :=
  filter (fun kv => (0 <? total_games (snd kv))%Z) (team_stats df).

(** [calc_pct(num, den)] *)
Definition calc_pct (num den : Z) : option Q := Rebin.pct num den.

Definition pct_user_win (s : team_stat) : option Q :=
  calc_pct (user_wins s) (total_games s).
Definition pct_team_cover (s : team_stat) : option Q :=
  calc_pct (team_covers s) (total_games s).
Definition pct_picked_for (s : team_stat) : option Q :=
  calc_pct (times_picked_for s) (total_games s).

(** *** Betting style: the user's picks by spread bucket *)

Definition Z_of_bool (b : bool) : Z := if b then 1%Z else 0%Z.

(** One joined row as the aggregation sees it: [game_id] counted,
    [home_cover] and [pick_home] summed, [home_spread] for the key and
    the minimum.  The count fills both [total_games] and
    [total_picks_made]. *)
Definition bias_row (r : perf_row) : Rebin.row :=
  Rebin.mkRow (home_spread (the_game r)) 1
              (Z_of_bool (home_cover (the_game r)))
              (Z_of_bool (pick_home r)) 1.

(** [df[(home_spread.round(1) >= spread_filter[0])
        & (home_spread.round(1) <= spread_filter[1])]] *)
Definition df_bias (spread_filter : Q * Q) (df : list perf_row)
  : list perf_row :=
  filter (fun r =>
            Qle_bool (fst spread_filter) (round1 (home_spread (the_game r)))
            && Qle_bool (round1 (home_spread (the_game r)))
                        (snd spread_filter)) df.

Record u_group := mkUGroup {
  u_key : Rebin.group;
  u_spread_bin : string;
  User_Pick_Home_pct : option Q;
  Actual_Cover_pct : option Q
}.

(** [(u_grouped['pick_home'] / u_grouped['game_id']) * 100] and the
    like: no guard on the divisor here. *)
Definition ratio_pct (num den : Z) : option Q :=
  option_map (fun q => q * 100) (fdiv (inject_Z num) (inject_Z den)).

Definition u_grouped (spread_filter : Q * Q) (u_bin_size : Q)
    (df : list perf_row) : list u_group :=
  map (fun g =>
         mkUGroup g (Rebin.label u_bin_size g)
                  (ratio_pct (Rebin.g_total_home_picks g) (Rebin.g_total_games g))
                  (ratio_pct (Rebin.g_total_covers g) (Rebin.g_total_games g)))
      (Rebin.groupby u_bin_size (map bias_row (df_bias spread_filter df))).

(** [u_grouped['Bias (Diff)']] *)
Definition Bias_Diff (g : u_group) : option Q :=
  match User_Pick_Home_pct g, Actual_Cover_pct g with
  | Some p, Some c => Some (p - c)
  | _, _ => None
  end.

(** *** Pool-wide luck baseline *)

Record luck_counts := mkLuck {
  n_blowout : Q;
  n_bad_beat : Q;
  n_lucky : Q;
  n_convincing : Q
}.

Definition luck_get (c : luck_counts) (b : luck_bucket) : Q :=
  match b with
  | Blowout_Loss => n_blowout c
  | Bad_Beat => n_bad_beat c
  | Lucky_Win => n_lucky c
  | Convincing_Win => n_convincing c
  end.

(** [pool_luck_counts[b] += v] *)
Definition luck_add (b : luck_bucket) (v : Q) (c : luck_counts) : luck_counts :=
  match b with
  | Blowout_Loss =>
      mkLuck (n_blowout c + v) (n_bad_beat c) (n_lucky c) (n_convincing c)
  | Bad_Beat =>
      mkLuck (n_blowout c) (n_bad_beat c + v) (n_lucky c) (n_convincing c)
  | Lucky_Win =>
      mkLuck (n_blowout c) (n_bad_beat c) (n_lucky c + v) (n_convincing c)
  | Convincing_Win =>
      mkLuck (n_blowout c) (n_bad_beat c) (n_lucky c) (n_convincing c + v)
  end.

Definition luck_order : list luck_bucket :=
  [Blowout_Loss; Bad_Beat; Lucky_Win; Convincing_Win].

(** The loop over [df_global_stats.dropna(subset=['home_margin'])]:
    the counts and [total_global_weight]. *)
Definition pool_luck_loop (luck_threshold : Q)
    (df_global_stats : list Baseline.global_row) : luck_counts * Q :=
  fold_left
    (fun (acc : luck_counts * Q) row =>
       match Baseline.home_margin row with
       | None => acc
       | Some hm =>
           let h_bucket := classify_luck luck_threshold hm in
           let a_bucket := classify_luck luck_threshold (- hm) in
           let p_home := fillna 50 (Baseline.g_home_pick_pct row) in
           (luck_add a_bucket (100 - p_home)
                     (luck_add h_bucket p_home (fst acc)),
            snd acc + 100)
       end)
    df_global_stats (mkLuck 0 0 0 0, 0).

(** [pool_display_data]: bucket and [Pool Pct]. *)
Definition pool_display_data (luck_threshold : Q)
    (df_global_stats : list Baseline.global_row) : list (luck_bucket * Q) :=
  let acc := pool_luck_loop luck_threshold df_global_stats in
  if Qlt_bool 0 (snd acc) then
    map (fun b => (b, luck_get (fst acc) b / snd acc * 100)) luck_order
  else [].

End Tab2b.

(* ================================================================= *)
(** ** Collecting the consensus in batches *)

Module Batches.
Import Perf.

(** [ids[i:i + batch_size] for i in range(0, len(ids), batch_size)] *)
Definition batches {A} (batch_size : nat) (ids : list A) : list (list A) :=
  map (fun j => firstn batch_size (skipn (j * batch_size) ids))
      (seq 0 ((List.length ids + batch_size - 1) / batch_size)).

(** The loop that fills [all_consensus]: a batch whose call raises is
    passed over. *)
Definition all_consensus (rpc : list Z -> option (list consensus))
    (all_game_ids : list Z) : list consensus :=
  flat_map (fun batch_ids => match rpc batch_ids with
                             | Some data => data
                             | None => []
                             end)
           (batches 1000 all_game_ids).

(** [get_global_herd_distribution(selected_seasons)] from the store:
    a consensus row without a percentage makes the subtraction raise,
    and the handler answers the empty dictionary. *)
Definition to_baseline_rows (l : list consensus)
  : option (list Baseline.consensus_row) :=
  fold_right (fun c acc =>
                match c_home_pick_pct c, acc with
                | Some p, Some rows =>
                    Some (Baseline.mkRow (c_total_picks c) p :: rows)
                | _, _ => None
                end) (Some []) l.

Definition get_global_herd_distribution (supabase_client : option backend)
    (selected_seasons : list Z) : option Baseline.counts :=
  match supabase_client with
  | None => None
  | Some be =>
      let all_game_ids :=
        map game_id (filter (fun g => mem_Z (season g) selected_seasons)
                            (table_game be)) in
      match all_game_ids with
      | [] => None
      | _ =>
          match to_baseline_rows
                  (all_consensus (Perf.get_game_consensus be) all_game_ids) with
          | Some rows => Baseline.get_global_herd_distribution rows
          | None => None
          end
      end
  end.

End Batches.

(* ================================================================= *)
(** ** Ingestion: one week sheet of the workbook *)

Module Sheet.
Import Num.

(** What a cell holds: nothing, a number or a text. *)
Inductive value :=
| VNone
| VNum (q : Q)
| VStr (s : string).

(** Python's truth value of a cell. *)
Definition truthy (v : value) : bool :=
  match v with
  | VNone => false
  | VNum q => negb (Qeq_bool q 0)
  | VStr s => negb (String.eqb s "")
  end.

Definition is_None (v : value) : bool :=
  match v with VNone => true | _ => false end.

(** [needle in hay] *)
Fixpoint contains (needle hay : string) : bool :=
  if String.prefix needle hay then true
  else match hay with
       | EmptyString => false
       | String _ rest => contains needle rest
       end.

Record worksheet := mkSheet {
  title : string;
  max_row : nat;
  max_column : nat;
  cell : nat -> nat -> value
}.

(** What one sheet contributes: the game records sent to the store,
    the identifiers it answered by column, and the pick records. *)
Record week_upload := mkUpload {
  games : list Ingest.game_payload;
  col_to_game_id : list (nat * Z);
  picks_to_upsert : list Perf.pick
}.

Section Builtins.

(** The library functions the loop calls, left uninterpreted:
    [str(v).strip()], [str(v).lower()], [float(s)] on a text ([None]
    when it raises), the week number the pattern [Week\s+(\d+)] finds
    in a title, and the identifier the store answers to an upsert
    ([None] when the call raises or answers no row). *)
Variable str_strip : value -> string.
Variable str_lower : value -> string.
Variable parse_float : string -> option Q.
Variable week_of_title : string -> option Z.
Variable upsert_game : Ingest.game_payload -> option Z.

(** The cell as [float()] will treat it. *)
Definition to_cell (v : value) : Ingest.cell :=
  match v with
  | VNone => Ingest.Blank
  | VNum q => Ingest.Numeric q
  | VStr s => match parse_float s with
              | Some q => Ingest.Numeric q
              | None => Ingest.Unreadable
              end
  end.

(** The columns [4 .. max_column] with a pick in row 8 and an away team
    in row 4. *)
Definition valid_game_cols (sheet : worksheet) : list nat :=
  filter (fun col_idx => negb (is_None (cell sheet 8 col_idx))
                         && negb (is_None (cell sheet 4 col_idx)))
         (seq 4 (max_column sheet - 3)).

(** [valid_game_cols[-1]] *)
Definition mnf_col_index (sheet : worksheet) : nat :=
  last (valid_game_cols sheet) 0%nat.

(** The game record of one column, [None] when the column is skipped. *)
Definition game_of_col (season_year week_num : Z) (sheet : worksheet)
    (col_idx : nat) : option Ingest.game_payload :=
  Ingest.upload_pool_data_game
    season_year week_num
    (str_strip (cell sheet 2 col_idx)) (str_strip (cell sheet 4 col_idx))
    (to_cell (cell sheet 1 col_idx)) (to_cell (cell sheet 3 col_idx))
    (to_cell (cell sheet 5 col_idx))
    (match cell sheet 7 col_idx with VStr s => Some s | _ => None end)
    (Nat.eqb col_idx (mnf_col_index sheet)).

Definition sheet_games (season_year week_num : Z) (sheet : worksheet)
  : list (nat * Ingest.game_payload) :=
  flat_map (fun col_idx =>
              match game_of_col season_year week_num sheet col_idx with
              | Some p => [(col_idx, p)]
              | None => []
              end) (valid_game_cols sheet).

Definition sheet_game_ids (season_year week_num : Z) (sheet : worksheet)
  : list (nat * Z) :=
  flat_map (fun cp : nat * Ingest.game_payload =>
              match upsert_game (snd cp) with
              | Some gid => [(fst cp, gid)]
              | None => []
              end) (sheet_games season_year week_num sheet).

(** [col_to_game_id.get(col_idx)] *)
Fixpoint get_id (d : list (nat * Z)) (col_idx : nat) : option Z :=
  match d with
  | [] => None
  | (c, gid) :: rest => if Nat.eqb c col_idx then Some gid else get_id rest col_idx
  end.

(** The forecast of the combined score, read three columns to the
    right of the last game. *)
Definition tot_points (sheet : worksheet) (row_idx col_idx : nat) : option Z :=
  if Nat.eqb col_idx (mnf_col_index sheet) then
    let tot_val := cell sheet row_idx (mnf_col_index sheet + 3) in
    if truthy tot_val then Ingest.to_score (to_cell tot_val) else None
  else None.

(** The picks of one participant row. *)
Definition row_picks (ids : list (nat * Z)) (sheet : worksheet)
    (row_idx : nat) : list Perf.pick :=
  let username_val := cell sheet row_idx 3 in
  let status_val := cell sheet row_idx 2 in
  if negb (truthy username_val) then []
  else
    let username := str_strip username_val in
    let status_str := if truthy status_val then str_lower status_val
                      else ""%string in
    let is_late := contains "late" status_str in
    let no_picks := contains "no picks" status_str in
    let pick_made_row := negb no_picks in
    flat_map
      (fun col_idx =>
         match get_id ids col_idx with
         | None => []
         | Some game_id =>
             if (game_id =? 0)%Z then []
             else
               let pick_cell_val := cell sheet row_idx col_idx in
               let home_team_abbr := str_strip (cell sheet 2 col_idx) in
               let pick_home :=
                 truthy pick_cell_val
                 && String.eqb (str_strip pick_cell_val) home_team_abbr in
               let actual_pick_made :=
                 pick_made_row && negb (is_None pick_cell_val) in
               [Perf.mkPick username game_id pick_home actual_pick_made
                            is_late (tot_points sheet row_idx col_idx)]
         end)
      (valid_game_cols sheet).

(** One pass of the loop over the sheets: [None] when the sheet is
    passed over (no week in its title, or no game column). *)
Definition process_sheet (season_year : Z) (sheet : worksheet)
  : option week_upload :=
  match week_of_title (title sheet) with
  | None => None
  | Some week_num =>
      match valid_game_cols sheet with
      | [] => None
      | _ =>
          let ids := sheet_game_ids season_year week_num sheet in
          Some (mkUpload
                  (map snd (sheet_games season_year week_num sheet))
                  ids
                  (flat_map (row_picks ids sheet)
                            (seq 8 (max_row sheet - 7))))
      end
  end.

End Builtins.

End Sheet.

(* ================================================================= *)
(** ** Totals of the running counts *)

Module Totals.
Import Num Tab2 Tab2b Baseline.

Definition luck_total (c : luck_counts) : Q :=
  n_blowout c + n_bad_beat c + n_lucky c + n_convincing c.

Definition counts_total (c : counts) : Q :=
  herd c + contrarian c + neutral c.

(** The body of the pool-wide luck loop. *)
Definition luck_step (t : Q) (acc : luck_counts * Q) (row : global_row)
  : luck_counts * Q :=
  match home_margin row with
  | None => acc
  | Some hm =>
      (luck_add (classify_luck t (- hm))
                (100 - Perf.fillna 50 (g_home_pick_pct row))
                (luck_add (classify_luck t hm)
                          (Perf.fillna 50 (g_home_pick_pct row)) (fst acc)),
       snd acc + 100)
  end.




(** How many times a team plays in the frame, at home or away. *)
Definition appearances (t : string) (df : list Perf.perf_row) : Z :=
  Zsum (map (fun r =>
               (Z_of_bool (String.eqb (Perf.home_team_id (Perf.the_game r)) t)
                + Z_of_bool (String.eqb (Perf.away_team_id (Perf.the_game r)) t))%Z)
            df).

(** No counter of a team goes down. *)
Definition field_le (a b : team_stat) : Prop :=
  (for_win a <= for_win b /\ for_loss a <= for_loss b /\
   against_win a <= against_win b /\ against_loss a <= against_loss b)%Z.

(** The sum of a counter over the teams of the dictionary. *)
Definition over_teams (m : team_stat -> Z) (d : stats_dict) : Z :=
  Zsum (map (fun kv => m (snd kv)) d).

(** The rows the loops read: [dropna(subset=['home_margin'])]. *)
Definition finished (df_global_stats : list global_row) : list global_row :=
  filter (fun row => match home_margin row with
                     | Some _ => true
                     | None => false
                     end) df_global_stats.

End Totals.

(* ================================================================= *)
(** ** More sample data *)

Module Samples2.
Import Perf Samples.

(** A raw frame with one missing spread. *)
Definition raw_rows : list Tab1.raw_row :=
  [Tab1.mkRaw (Some (-3)) 1 1 1 1;
   Tab1.mkRaw None 2 0 1 2;
   Tab1.mkRaw (Some (26 # 10)) 1 0 0 1].

(** Three rows that fall into two buckets of width 1. *)
Definition two_bucket_rows : list Rebin.row :=
  [Rebin.mkRow (-3) 1 1 1 1; Rebin.mkRow 1 1 0 0 1;
   Rebin.mkRow (12 # 10) 2 1 1 2].

Definition low_bucket : Rebin.bucket :=
  Rebin.finish 1 (Rebin.mkGroup (-3) 1 1 1 1 (-3)).

Definition high_bucket : Rebin.bucket :=
  Rebin.finish 1 (Rebin.mkGroup 1 3 1 1 3 1).

Definition global_rows : list Baseline.global_row :=
  [Baseline.mkGlobal (Some 3) (Some 60);
   Baseline.mkGlobal None (Some 50);
   Baseline.mkGlobal (Some (-1)) None].

Definition consensus_rows : list Baseline.consensus_row :=
  [Baseline.mkRow 10 60; Baseline.mkRow 5 30].

(** The store of [sample_backend] with a failing consensus call. *)
Definition backend_no_consensus : backend :=
  mkBackend (table_game sample_backend) (table_pick sample_backend)
            (fun _ => None) (fun _ => Some []).

Definition alice_row_50 : perf_row :=
  mkPerfRow sample_game 47 true true None None (Some 50).

(** A store with one point-total game, its consensus and its median. *)
Definition backend_mnf : backend :=
  mkBackend [mnf_game] []
            (fun _ => Some [mkConsensus 4 10 (Some 55)])
            (fun _ => Some [mkMedian 4 (Some 47)]).

Definition two_picks : list perf_row :=
  [alice_row; sample_row false (Some 30)].

(** A week sheet: two games in columns 4 and 5, two participants in
    rows 8 and 9, the total forecast in column 8. *)
Definition sample_cell (r c : nat) : Sheet.value :=
  match r, c with
  | 1, 4 => Sheet.VNum 27
  | 2, 4 => Sheet.VStr "BUF"
  | 3, 4 => Sheet.VNum (-3)
  | 4, 4 => Sheet.VStr "MIA"
  | 5, 4 => Sheet.VNum 20
  | 1, 5 => Sheet.VNum 24
  | 2, 5 => Sheet.VStr "KC"
  | 3, 5 => Sheet.VNum (-3)
  | 4, 5 => Sheet.VStr "DEN"
  | 5, 5 => Sheet.VNum 21
  | 8, 3 => Sheet.VStr "alice"
  | 8, 4 => Sheet.VStr "BUF"
  | 8, 5 => Sheet.VStr "DEN"
  | 8, 8 => Sheet.VNum 45
  | 9, 2 => Sheet.VStr "No Picks"
  | 9, 3 => Sheet.VStr "bob"
  | 9, 5 => Sheet.VStr "KC"
  | _, _ => Sheet.VNone
  end%nat.

Definition sample_sheet : Sheet.worksheet :=
  Sheet.mkSheet "Week 1" 9 8 sample_cell.

(** One reading of the library functions, enough for the sheet above. *)
Definition sample_strip (v : Sheet.value) : string :=
  match v with Sheet.VStr s => s | _ => "" end.

Definition sample_lower (v : Sheet.value) : string :=
  match v with
  | Sheet.VStr s => if String.eqb s "No Picks" then "no picks" else s
  | _ => ""
  end.

Definition sample_float (s : string) : option Q := None.

Definition sample_week (t : string) : option Z := Some 1%Z.

Definition sample_upsert (p : Ingest.game_payload) : option Z :=
  Some (if Ingest.mnf p then 2%Z else 1%Z).

Definition sample_upload : option Sheet.week_upload :=
  Sheet.process_sheet sample_strip sample_lower sample_float sample_week
                      sample_upsert 2024 sample_sheet.

(** Alice's pick on the second game, with her forecast of the total. *)
Definition alice_mnf_pick : pick :=
  mkPick "alice" 2 false true false (Some 45%Z).

End Samples2.

(* ================================================================= *)
(** * Properties *)

(** ** Comparisons and sums *)

Module NumFacts.
Import Num.

Lemma Qlt_bool_iff (a b : Q) : Qlt_bool a b = true <-> a < b.
Proof.
  unfold Qlt_bool. rewrite negb_true_iff.
  destruct (Qle_bool b a) eqn:E.
  - apply Qle_bool_iff in E. split; [discriminate | intro H; lra].
  - split; [intros _ | reflexivity].
    apply Qnot_le_lt. intro H. apply Qle_bool_iff in H. congruence.
Qed.

Lemma Qlt_bool_spec (a b : Q) : reflect (a < b) (Qlt_bool a b).
Proof. apply iff_reflect. symmetry. apply Qlt_bool_iff. Qed.

Lemma Qle_bool_spec (a b : Q) : reflect (a <= b) (Qle_bool a b).
Proof. apply iff_reflect. symmetry. apply Qle_bool_iff. Qed.

Lemma Qeq_bool_spec (a b : Q) : reflect (a == b) (Qeq_bool a b).
Proof. apply iff_reflect. symmetry. apply Qeq_bool_iff. Qed.

(** Turn every boolean comparison in sight into its proposition. *)
Ltac qcases :=
  repeat match goal with
    | |- context [Qlt_bool ?a ?b] => destruct (Qlt_bool_spec a b)
    | |- context [Qle_bool ?a ?b] => destruct (Qle_bool_spec a b)
    | |- context [Qeq_bool ?a ?b] => destruct (Qeq_bool_spec a b)
    end.

(** Division by the constant 100, in the form [lra] reads. *)
Ltac by100 := unfold Qdiv in *; change (/ 100) with (1 # 100) in *.

Lemma Qsum_nonneg (l : list Q) :
  (forall x, In x l -> 0 <= x) -> 0 <= Qsum l.
Proof.
  induction l as [|x t IH]; simpl; intros H; [lra|].
  assert (0 <= x) by (apply H; now left).
  assert (0 <= Qsum t) by (apply IH; intros y Hy; apply H; now right).
  lra.
Qed.

Lemma mean_nonneg (l : list Q) :
  (forall x, In x l -> 0 <= x) -> 0 <= mean l.
Proof.
  intros H. unfold mean.
  destruct l as [|x t].
  - simpl. unfold Qdiv. rewrite Qmult_0_l. lra.
  - apply Qle_shift_div_l.
    + change 0 with (inject_Z 0). rewrite <- Zlt_Qlt.
      simpl List.length. lia.
    + rewrite Qmult_0_l. now apply Qsum_nonneg.
Qed.

Lemma fdiv_some (a b : Q) : ~ b == 0 -> fdiv a b = Some (a / b).
Proof.
  intros H. unfold fdiv. destruct (Qeq_bool_spec b 0); [contradiction | reflexivity].
Qed.

End NumFacts.

(* ================================================================= *)
(** ** Luck buckets *)

Module LuckFacts.
Import Num NumFacts Tab2.

(** The four displayed names are pairwise different. *)
Lemma luck_label_inj (shown : string) (a b : luck_bucket) :
  luck_label shown a = luck_label shown b -> a = b.
Proof.
  destruct a, b; simpl; intros H; try reflexivity; try discriminate H;
    repeat (injection H as H; try discriminate).
Qed.

(** C2.  For a threshold [t > 0] the luck classification puts a margin
    in Blowout Loss exactly when [margin < -t], in Bad Beat exactly
    when [-t <= margin <= 0], in Lucky Win exactly when
    [0 < margin <= t] and in Convincing Win exactly when [margin > t];
    a margin of exactly 0 is a Bad Beat and not a Lucky Win. *)
Theorem classify_luck_four_buckets (t margin : Q) :
  0 < t ->
  (classify_luck t margin = Blowout_Loss <-> margin < - t) /\
  (classify_luck t margin = Bad_Beat <-> - t <= margin /\ margin <= 0) /\
  (classify_luck t margin = Lucky_Win <-> 0 < margin /\ margin <= t) /\
  (classify_luck t margin = Convincing_Win <-> t < margin) /\
  (margin == 0 ->
   classify_luck t margin = Bad_Beat /\ classify_luck t margin <> Lucky_Win).
Proof.
  intros Ht. unfold classify_luck.
  qcases; repeat split; intros; try discriminate; try reflexivity;
    try lra; try (exfalso; lra); try tauto.
Qed.

Lemma classify_luck_four_buckets_witness :
  0 < 5 # 2 /\
  classify_luck (5 # 2) 0 = Bad_Beat /\
  classify_luck (5 # 2) 3 = Convincing_Win /\
  classify_luck (5 # 2) (-1) = Bad_Beat.
Proof.
  split; [reflexivity|].
  destruct (classify_luck_four_buckets (5 # 2) 0 eq_refl)
    as (_ & _ & _ & _ & H0).
  destruct (classify_luck_four_buckets (5 # 2) 3 eq_refl)
    as (_ & _ & _ & H3 & _).
  destruct (classify_luck_four_buckets (5 # 2) (-1) eq_refl)
    as (_ & H1 & _).
  split; [apply H0; reflexivity|].
  split; [apply H3; reflexivity|].
  apply H1. split; discriminate.
Defined.

End LuckFacts.

(* ================================================================= *)
(** ** Herd classification *)

Module HerdFacts.
Import Num NumFacts Perf Tab2 SpecRule Samples.

Lemma herd_label_inj (a b : herd_status) :
  herd_label a = herd_label b -> a = b.
Proof. destruct a, b; simpl; intros H; try reflexivity; discriminate H. Qed.

(** The code and the rule of the specification agree exactly on the
    shares above 1 and on those of at most 0.4. *)
Lemma herd_status_agrees_iff (r : perf_row) (pct : Q) :
  home_pick_pct r = Some pct ->
  0 <= pct <= 100 ->
  (get_herd_status r = herd_by_share (picked_share (pick_home r) pct)
   <-> 1 < pct \/ pct <= 2 # 5).
Proof.
  intros E [Hlo Hhi]. unfold get_herd_status, herd_by_share, picked_share.
  rewrite E. destruct (pick_home r);
    qcases; by100; split; intros H; try discriminate; try reflexivity;
      try (exfalso; lra); try (left; lra); try (right; lra);
      try (destruct H; exfalso; lra).
Qed.






End HerdFacts.

(* ================================================================= *)
(** ** Outcome and signed margin *)

Module MarginFacts.
Import Num NumFacts Perf Tab2.

(** The flags of a stored game, as the ingestion computed them. *)
Lemma ingested_flags season_year week_num home_team away_team
    hc sc ac ot_val is_mnf p :
  Ingest.upload_pool_data_game season_year week_num home_team away_team
    hc sc ac ot_val is_mnf = Some p ->
  let adjusted := inject_Z (Ingest.home_score p) + Ingest.home_spread p in
  (Ingest.tie_spread p = true <-> adjusted == inject_Z (Ingest.away_score p)) /\
  (Ingest.home_cover p = true <-> inject_Z (Ingest.away_score p) < adjusted).
Proof.
  unfold Ingest.upload_pool_data_game.
  destruct (Ingest.to_score hc) as [h|]; [|discriminate].
  destruct (Ingest.to_score ac) as [a|]; [|discriminate].
  destruct (Ingest.to_float 0 sc) as [s|]; [|discriminate].
  intros H. injection H as <-. simpl. split.
  - apply Qeq_bool_iff.
  - apply Qlt_bool_iff.
Qed.

(** C6.  On every joined row [user_won] is [pick_home == home_cover],
    [raw_margin] is [(home_score + home_spread) - away_score] and
    [user_margin] is [raw_margin] for a home pick and its negation
    otherwise; and on a game whose flags the ingestion computed, a
    positive [user_margin] means that the picked side covered, by
    that many points. *)
Theorem user_margin_meaning (r : perf_row)
    season_year week_num home_team away_team hc sc ac ot_val is_mnf p gid :
  Ingest.upload_pool_data_game season_year week_num home_team away_team
    hc sc ac ot_val is_mnf = Some p ->
  the_game r = stored gid p ->
  let g := the_game r in
  let adjusted_home := inject_Z (home_score g) + home_spread g in
  user_won r = Bool.eqb (pick_home r) (home_cover g) /\
  raw_margin r == adjusted_home - inject_Z (away_score g) /\
  (pick_home r = true -> user_margin r == raw_margin r) /\
  (pick_home r = false -> user_margin r == - raw_margin r) /\
  (pick_home r = true ->
   user_margin r == adjusted_home - inject_Z (away_score g)) /\
  (pick_home r = false ->
   user_margin r == inject_Z (away_score g) - adjusted_home) /\
  (0 < user_margin r -> user_won r = true) /\
  (0 < user_margin r <-> user_won r = true /\ tie_spread g = false).
Proof.
  intros Hp Hg. destruct (ingested_flags _ _ _ _ _ _ _ _ _ _ Hp) as [Ht Hc].
  cbv zeta in *. unfold user_won, user_margin, raw_margin.
  rewrite Hg. simpl.
  set (h := inject_Z (Ingest.home_score p)) in *.
  set (s := Ingest.home_spread p) in *.
  set (a := inject_Z (Ingest.away_score p)) in *.
  assert (Hord : (Ingest.home_cover p = true /\ a < h + s)
                 \/ (Ingest.home_cover p = false
                     /\ Ingest.tie_spread p = true /\ h + s == a)
                 \/ (Ingest.home_cover p = false
                     /\ Ingest.tie_spread p = false /\ h + s < a)).
  { destruct (Ingest.home_cover p) eqn:Ec.
    - left. split; [reflexivity | now apply Hc].
    - right. assert (Hle : h + s <= a).
      { apply Qnot_lt_le. intro Hlt. apply Hc in Hlt. discriminate. }
      destruct (Ingest.tie_spread p) eqn:Et.
      + left. repeat split. now apply Ht.
      + right. repeat split.
        destruct (Qle_lt_or_eq _ _ Hle) as [Hlt | Heq]; [exact Hlt|].
        apply Ht in Heq. discriminate. }
  assert (Hexcl : Ingest.home_cover p = true -> Ingest.tie_spread p = false).
  { intros Ec. destruct (Ingest.tie_spread p) eqn:Et; [|reflexivity].
    apply Hc in Ec. assert (h + s == a) by now apply Ht. lra. }
  destruct Hord as [[Ec Ho] | [(Ec & Et & Ho) | (Ec & Et & Ho)]];
    try rewrite (Hexcl Ec); rewrite Ec; try rewrite Et;
    destruct (pick_home r); simpl;
    repeat split; intros; try discriminate; try reflexivity; try lra;
    repeat match goal with
      | H : _ /\ _ |- _ => destruct H
      end; try discriminate; try lra.
Qed.

End MarginFacts.

(* ================================================================= *)
(** ** Joins *)

Module MergeFacts.
Import Num NumFacts Perf.

Section Merge.
Context {A B : Type} (ka : A -> Z) (kb : B -> Z).

Lemma merge_inner_elim (l : list A) (r : list B) a b :
  In (a, b) (merge_inner ka kb l r) ->
  In a l /\ In b r /\ kb b = ka a.
Proof.
  unfold merge_inner. rewrite in_flat_map.
  intros (a' & Ha & H). apply in_map_iff in H.
  destruct H as (b' & Heq & Hb). inversion Heq; subst.
  apply filter_In in Hb. destruct Hb as [Hb Hk].
  apply Z.eqb_eq in Hk. auto.
Qed.


Lemma merge_left_elim (l : list A) (r : list B) a ob :
  In (a, ob) (merge_left ka kb l r) ->
  In a l /\
  match ob with
  | Some b => In b r /\ kb b = ka a
  | None => forall b, In b r -> kb b <> ka a
  end.
Proof.
  unfold merge_left. rewrite in_flat_map.
  intros (a' & Ha & H).
  destruct (filter (fun b => (kb b =? ka a')%Z) r) as [|m ms] eqn:E.
  - destruct H as [H | []]. inversion H; subst. split; [exact Ha|].
    intros b Hb Hk.
    assert (Hin : In b (filter (fun b => (kb b =? ka a)%Z) r)).
    { apply filter_In. split; [exact Hb | now apply Z.eqb_eq]. }
    rewrite E in Hin. exact Hin.
  - apply in_map_iff in H. destruct H as (b' & Heq & Hb).
    inversion Heq; subst. split; [exact Ha|].
    rewrite <- E in Hb. apply filter_In in Hb.
    destruct Hb as [Hb Hk]. apply Z.eqb_eq in Hk. auto.
Qed.


End Merge.

Lemma is_empty_false {A} (l : list A) : is_empty l = false <-> l <> [].
Proof. destruct l; simpl; split; congruence. Qed.



End MergeFacts.

(* ================================================================= *)
(** ** The performance frame: ties and the Median Picker *)

Module DataFacts.
Import Num NumFacts Perf MergeFacts.

Lemma games_query_no_tie be seasons g :
  In g (games_query be seasons) ->
  In g (table_game be) /\ tie_spread g = false
  /\ mem_Z (season g) seasons = true.
Proof.
  unfold games_query. intros H. apply filter_In in H.
  destruct H as [Hin H]. apply andb_true_iff in H. destruct H as [Hs Ht].
  apply eqb_prop in Ht. auto.
Qed.






End DataFacts.

(* ================================================================= *)
(** ** Point-total (MNF) summary *)

Module MnfFacts.
Import Num NumFacts Perf Tab2.

Lemma mae_median_nonneg (st : list stat) :
  0 <= mean (map abs_err_median st).
Proof.
  apply mean_nonneg. intros x H. apply in_map_iff in H.
  destruct H as (s & <- & _). apply Qabs_nonneg.
Qed.



End MnfFacts.

(* ================================================================= *)
(** ** Pool-wide herd baselines *)

Module BaselineFacts.
Import Num NumFacts Tab2 Baseline.

(** What the baselines' chain does with a side's pick share. *)
Lemma side_category_cases (p : Q) :
  (side_category p = Herd_Chalk <-> 60 < p) /\
  (side_category p = Contrarian_Lone_Wolf <-> p < 40) /\
  (side_category p = Neutral <-> 40 <= p /\ p <= 60).
Proof.
  unfold side_category. qcases; repeat split; intros;
    try discriminate; try reflexivity; try lra; try (exfalso; lra).
Qed.

(** The baselines' chain and the per-pick rule part ways at a share
    of exactly 60 and of exactly 40, and nowhere else. *)
Lemma side_category_vs_rule (p : Q) :
  side_category p = SpecRule.herd_by_share p <-> ~ p == 60 /\ ~ p == 40.
Proof.
  unfold side_category, SpecRule.herd_by_share.
  qcases; split; intros H; try discriminate; try reflexivity;
    try (exfalso; lra); try (split; lra);
    try (destruct H; exfalso; lra).
Qed.

(** C4, at the boundary.  On a single game with ten picks, six of them
    (60%) for the home side, both baselines count the home side as
    Neutral and nothing as Herd, whereas the per-pick classification
    calls a home pick on that game Herd. *)
Theorem baseline_at_60_is_neutral :
  side_category 60 = Neutral /\
  (exists c, get_global_herd_distribution [mkRow 10 60] = Some c
             /\ herd c == 0 /\ contrarian c == 0 /\ neutral c == 1) /\
  (let acc := pool_herd_loop [mkGlobal (Some 3) (Some 60)] in
   herd (pool_herd_counts acc) == 0 /\
   neutral (pool_herd_counts acc) == 100) /\
  get_herd_status (Samples.sample_row true (Some 60)) = Herd_Chalk /\
  SpecRule.herd_by_share 60 = Herd_Chalk.
Proof.
  split; [reflexivity|]. split; [|split; [|split]].
  - eexists. split; [reflexivity|]. repeat split.
  - split; reflexivity.
  - reflexivity.
  - reflexivity.
Qed.

End BaselineFacts.

(* ================================================================= *)
(** ** Rebinning: grouping and conservation *)

Module RebinFacts.
Import Num NumFacts Rebin.

Lemma groupby_snoc (w : Q) (df : list row) (r : row) :
  groupby w (df ++ [r]) = upsert (bin_floor w r) r (groupby w df).
Proof. unfold groupby. rewrite fold_left_app. reflexivity. Qed.

Lemma upsert_keys k r acc g' :
  In g' (upsert k r acc) ->
  g_bin_floor g' == k \/ exists g, In g acc /\ g_bin_floor g' = g_bin_floor g.
Proof.
  induction acc as [|g rest IH]; simpl.
  - intros [<- | []]. left. reflexivity.
  - destruct (k ?= g_bin_floor g) eqn:E.
    + intros [<- | H].
      * right. exists g. split; [now left | reflexivity].
      * right. exists g'. split; [now right | reflexivity].
    + intros [<- | [<- | H]].
      * left. reflexivity.
      * right. exists g. split; [now left | reflexivity].
      * right. exists g'. split; [now right | reflexivity].
    + intros [<- | H].
      * right. exists g. split; [now left | reflexivity].
      * destruct (IH H) as [Hk | (g0 & Hg0 & Hk)]; [now left|].
        right. exists g0. split; [now right | exact Hk].
Qed.

Lemma upsert_ascending k r acc :
  ascending acc -> ascending (upsert k r acc).
Proof.
  unfold ascending. induction 1 as [|g rest Hs IH Hall]; simpl.
  - repeat constructor.
  - destruct (k ?= g_bin_floor g) eqn:E.
    + constructor; [exact Hs|].
      eapply Forall_impl; [|exact Hall]. intros a Ha. exact Ha.
    + apply Qlt_alt in E. constructor.
      * constructor; assumption.
      * constructor; [exact E|].
        eapply Forall_impl; [|exact Hall]. intros a Ha.
        unfold key_lt in *. simpl. lra.
    + apply Qgt_alt in E. constructor; [exact IH|].
      apply Forall_forall. intros a Ha.
      destruct (upsert_keys _ _ _ _ Ha) as [Hk | (g0 & Hg0 & Hk)].
      * unfold key_lt. lra.
      * rewrite Forall_forall in Hall. specialize (Hall g0 Hg0).
        unfold key_lt in *. rewrite Hk. exact Hall.
Qed.

Lemma groupby_ascending w df : ascending (groupby w df).
Proof.
  induction df as [|r df IH] using rev_ind.
  - constructor.
  - rewrite groupby_snoc. now apply upsert_ascending.
Qed.


(** Where an element of the updated groups comes from. *)
Lemma upsert_origin k r acc g' :
  ascending acc -> In g' (upsert k r acc) ->
  (g' = group_of k r /\ forall g, In g acc -> ~ g_bin_floor g == k)
  \/ (exists g, In g acc /\ g_bin_floor g == k /\ g' = group_add g r)
  \/ (In g' acc /\ ~ g_bin_floor g' == k).
Proof.
  unfold ascending. induction 1 as [|g rest Hs IH Hall]; simpl.
  - intros [<- | []]. left. split; [reflexivity | intros g []].
  - rewrite Forall_forall in Hall. unfold key_lt in Hall.
    destruct (k ?= g_bin_floor g) eqn:E.
    + apply Qeq_alt in E. intros [<- | H].
      * right; left. exists g. split; [now left|].
        split; [now symmetry | reflexivity].
      * right; right. split; [now right|].
        specialize (Hall _ H). lra.
    + apply Qlt_alt in E. intros [<- | H].
      * left. split; [reflexivity|]. intros g0 [<- | H0]; [lra|].
        specialize (Hall _ H0). lra.
      * right; right. split; [exact H|].
        destruct H as [<- | H]; [lra|]. specialize (Hall _ H). lra.
    + apply Qgt_alt in E. intros [<- | H].
      * right; right. split; [now left | lra].
      * destruct (IH H) as [[Heq Hno] | [(g0 & Hg0 & Hk & Heq) | [Hin Hk]]].
        -- left. split; [exact Heq|]. intros g0 [<- | H0]; [lra | now apply Hno].
        -- right; left. exists g0. split; [now right | auto].
        -- right; right. split; [now right | exact Hk].
Qed.

Lemma upsert_has_key k r acc :
  exists g, In g (upsert k r acc) /\ g_bin_floor g == k.
Proof.
  induction acc as [|g rest IH]; simpl.
  - eexists. split; [now left | reflexivity].
  - destruct (k ?= g_bin_floor g) eqn:E.
    + apply Qeq_alt in E. eexists. split; [now left|]. simpl. now symmetry.
    + eexists. split; [now left | reflexivity].
    + destruct IH as (g0 & H0 & Hk). exists g0. split; [now right | exact Hk].
Qed.

Lemma upsert_keeps_key k r acc g :
  In g acc -> exists g', In g' (upsert k r acc)
                         /\ g_bin_floor g' = g_bin_floor g.
Proof.
  induction acc as [|g0 rest IH]; [intros []|]. simpl.
  destruct (k ?= g_bin_floor g0) eqn:E; intros [<- | H].
  - eexists. split; [now left | reflexivity].
  - exists g. split; [now right | reflexivity].
  - exists g0. split; [right; now left | reflexivity].
  - exists g. split; [now do 2 right | reflexivity].
  - exists g0. split; [now left | reflexivity].
  - destruct (IH H) as (g' & H' & Hk). exists g'. split; [now right | exact Hk].
Qed.

(** Every row's key is the key of some group. *)
Lemma groupby_covers w df r :
  In r df -> exists g, In g (groupby w df) /\ g_bin_floor g == bin_floor w r.
Proof.
  induction df as [|r0 df IH] using rev_ind; [intros []|].
  rewrite groupby_snoc. intros H. apply in_app_or in H.
  destruct H as [H | [<- | []]].
  - destruct (IH H) as (g & Hg & Hk).
    destruct (upsert_keeps_key (bin_floor w r0) r0 _ _ Hg) as (g' & Hg' & Hk').
    exists g'. split; [exact Hg' | now rewrite Hk'].
  - apply upsert_has_key.
Qed.

(** Every group's key is the key of some row. *)
Lemma groupby_keys_from_rows w df g :
  In g (groupby w df) ->
  exists r, In r df /\ g_bin_floor g == bin_floor w r.
Proof.
  revert g. induction df as [|r0 df IH] using rev_ind; [intros g []|].
  intros g. rewrite groupby_snoc. intros H.
  destruct (upsert_keys _ _ _ _ H) as [Hk | (g0 & Hg0 & Hk)].
  - exists r0. split; [apply in_or_app; right; now left | exact Hk].
  - destruct (IH _ Hg0) as (r & Hr & Hk0).
    exists r. split; [apply in_or_app; now left | now rewrite Hk].
Qed.

Lemma Zsum_app (l1 l2 : list Z) : Zsum (l1 ++ l2) = (Zsum l1 + Zsum l2)%Z.
Proof. induction l1 as [|x t IH]; simpl; [reflexivity | lia]. Qed.

Lemma members_none w k df :
  (forall r, In r df -> ~ bin_floor w r == k) -> members w k df = [].
Proof.
  unfold members. induction df as [|r df IH]; simpl; intros H; [reflexivity|].
  destruct (Qeq_bool_spec (bin_floor w r) k) as [E | _].
  - exfalso. apply (H r); [now left | exact E].
  - apply IH. intros r' Hr'. apply H. now right.
Qed.

Lemma rebin_data_eq df w : rebin_data df w = map (finish w) (groupby w df).
Proof. destruct df; reflexivity. Qed.

Section Counter.
(** A summed column: its value in a group and in a row. *)
Variable fg : group -> Z.
Variable fr : row -> Z.
Hypothesis fg_of : forall k r, fg (group_of k r) = fr r.
Hypothesis fg_add : forall g r, fg (group_add g r) = (fg g + fr r)%Z.

Lemma upsert_sum k r acc :
  Zsum (map fg (upsert k r acc)) = (Zsum (map fg acc) + fr r)%Z.
Proof.
  induction acc as [|g rest IH]; simpl.
  - rewrite fg_of. lia.
  - destruct (k ?= g_bin_floor g); simpl.
    + rewrite fg_add. lia.
    + rewrite fg_of. lia.
    + rewrite IH. lia.
Qed.

(** Conservation: the groups share out the column's total. *)
Lemma groupby_sum w df :
  Zsum (map fg (groupby w df)) = Zsum (map fr df).
Proof.
  induction df as [|r df IH] using rev_ind; [reflexivity|].
  rewrite groupby_snoc, upsert_sum, IH, map_app, Zsum_app. simpl. lia.
Qed.

(** A group holds the sum over exactly the rows with its key. *)
Lemma groupby_group_sum w df g :
  In g (groupby w df) ->
  fg g = Zsum (map fr (members w (g_bin_floor g) df)).
Proof.
  revert g. induction df as [|r0 df IH] using rev_ind; [intros g []|].
  intros g. rewrite groupby_snoc. intros H.
  unfold members. rewrite filter_app, map_app, Zsum_app.
  fold (members w (g_bin_floor g) df). simpl filter.
  destruct (upsert_origin _ _ _ _ (groupby_ascending w df) H)
    as [[-> Hno] | [(g0 & Hg0 & Hk & ->) | [Hin Hk]]].
  - simpl g_bin_floor. rewrite Qeq_bool_refl, fg_of.
    rewrite members_none; [simpl; lia|].
    intros r Hr E.
    destruct (groupby_covers w df r Hr) as (g1 & Hg1 & Hk1).
    apply (Hno g1 Hg1). now rewrite Hk1.
  - simpl g_bin_floor. rewrite fg_add, (IH _ Hg0).
    destruct (Qeq_bool_spec (bin_floor w r0) (g_bin_floor g0)) as [_ | N].
    + simpl. lia.
    + exfalso. apply N. now symmetry.
  - rewrite (IH _ Hin).
    destruct (Qeq_bool_spec (bin_floor w r0) (g_bin_floor g)) as [E | _].
    + exfalso. apply Hk. now symmetry.
    + simpl. lia.
Qed.

End Counter.

Lemma Zsum_between (f h : row -> Z) (l : list row) :
  (forall r, In r l -> (0 <= f r <= h r)%Z) ->
  (0 <= Zsum (map f l) <= Zsum (map h l))%Z.
Proof.
  induction l as [|r l IH]; simpl; intros H; [lia|].
  pose proof (H r (or_introl eq_refl)).
  assert (0 <= Zsum (map f l) <= Zsum (map h l))%Z
    by (apply IH; intros r' Hr'; apply H; now right).
  lia.
Qed.


Lemma members_incl w k df r : In r (members w k df) -> In r df.
Proof. unfold members. intros H. apply filter_In in H. tauto. Qed.

Lemma replace_0_1_max (d : Z) : (0 <= d)%Z -> replace_0_1 d = Z.max d 1.
Proof. unfold replace_0_1. destruct (Z.eqb_spec d 0); lia. Qed.

(** The percentage of a non-negative denominator is a number. *)
Lemma pct_formula (n d : Z) :
  (0 <= d)%Z ->
  pct n d = Some (inject_Z n / inject_Z (Z.max d 1) * 100).
Proof.
  intros Hd. unfold pct. rewrite replace_0_1_max by exact Hd.
  rewrite fdiv_some; [reflexivity|].
  intros E. unfold Qeq in E. simpl in E. lia.
Qed.

Lemma pct_range (n d : Z) :
  (0 <= n <= d)%Z ->
  0 <= inject_Z n / inject_Z (Z.max d 1) * 100 <= 100 /\
  (d = 0%Z -> inject_Z n / inject_Z (Z.max d 1) * 100 == 0).
Proof.
  intros [Hn Hd].
  assert (HD : 0 < inject_Z (Z.max d 1)).
  { change 0 with (inject_Z 0). rewrite <- Zlt_Qlt. lia. }
  assert (Hn' : 0 <= inject_Z n).
  { change 0 with (inject_Z 0). now rewrite <- Zle_Qle. }
  assert (HnD : inject_Z n <= inject_Z (Z.max d 1)).
  { rewrite <- Zle_Qle. lia. }
  assert (H0 : 0 <= inject_Z n / inject_Z (Z.max d 1)).
  { apply Qle_shift_div_l; [exact HD | lra]. }
  assert (H1 : inject_Z n / inject_Z (Z.max d 1) <= 1).
  { apply Qle_shift_div_r; [exact HD | lra]. }
  split; [split; lra|].
  intros ->. assert (n = 0%Z) as -> by lia. reflexivity.
Qed.

Lemma members_In w k df r :
  In r (members w k df) <-> In r df /\ bin_floor w r == k.
Proof.
  unfold members. rewrite filter_In, Qeq_bool_iff. reflexivity.
Qed.

Lemma rebin_data_In df w b :
  In b (rebin_data df w) <->
  exists g, In g (groupby w df) /\ b = finish w g.
Proof.
  rewrite rebin_data_eq, in_map_iff. split; intros (g & H1 & H2).
  - exists g. auto.
  - exists g. auto.
Qed.



(** Per-row bounds carry over to every group. *)
Lemma groupby_bounds (f h : row -> Z) (fg hg : group -> Z) w df g :
  (forall k r, fg (group_of k r) = f r) ->
  (forall g r, fg (group_add g r) = (fg g + f r)%Z) ->
  (forall k r, hg (group_of k r) = h r) ->
  (forall g r, hg (group_add g r) = (hg g + h r)%Z) ->
  (forall r, In r df -> (0 <= f r <= h r)%Z) ->
  In g (groupby w df) -> (0 <= fg g <= hg g)%Z.
Proof.
  intros F1 F2 H1 H2 Hb Hg.
  rewrite (groupby_group_sum fg f F1 F2 w df g Hg).
  rewrite (groupby_group_sum hg h H1 H2 w df g Hg).
  apply Zsum_between. intros r Hr. apply Hb. eapply members_incl, Hr.
Qed.



End RebinFacts.

(* ================================================================= *)
(** ** The theorems at the sample data *)

Module Checks.
Import Num Perf Tab2 Samples.





Lemma user_margin_meaning_witness :
  Ingest.upload_pool_data_game 2024 1 "BUF" "MIA"
    (Ingest.Numeric 27) (Ingest.Numeric (-3)) (Ingest.Numeric 20)
    None false = Some sample_payload /\
  0 < user_margin (sample_row true None) /\
  user_won (sample_row true None) = true.
Proof.
  split; [reflexivity|]. split; [reflexivity|].
  destruct (MarginFacts.user_margin_meaning (sample_row true None)
              2024 1 "BUF" "MIA"
              (Ingest.Numeric 27) (Ingest.Numeric (-3)) (Ingest.Numeric 20)
              None false sample_payload 1 eq_refl eq_refl)
    as (_ & _ & _ & _ & _ & _ & H & _).
  apply H. reflexivity.
Defined.




End Checks.

(* ================================================================= *)
(** ** Rounding *)

Module RoundFacts.
Import Num NumFacts.

Lemma rint_cases (x : Q) :
  (rint x = Qfloor x /\ x - inject_Z (Qfloor x) <= 1 # 2)
  \/ (rint x = (Qfloor x + 1)%Z /\ 1 # 2 <= x - inject_Z (Qfloor x)).
Proof.
  unfold rint.
  destruct (Qlt_bool_spec (x - inject_Z (Qfloor x)) (1 # 2)) as [H | H].
  - left. split; [reflexivity | lra].
  - destruct (Qlt_bool_spec (1 # 2) (x - inject_Z (Qfloor x))) as [H' | H'].
    + right. split; [reflexivity | lra].
    + destruct (Z.even (Qfloor x)).
      * left. split; [reflexivity | lra].
      * right. split; [reflexivity | lra].
Qed.

Lemma floor_bounds (x : Q) :
  inject_Z (Qfloor x) <= x /\ x < inject_Z (Qfloor x) + 1.
Proof.
  split; [apply Qfloor_le|].
  pose proof (Qlt_floor x) as H. rewrite inject_Z_plus in H. exact H.
Qed.

Lemma ceiling_bounds (x : Q) :
  x <= inject_Z (Qceiling x) /\ inject_Z (Qceiling x) - 1 < x.
Proof.
  split; [apply Qle_ceiling|].
  pose proof (Qceiling_lt x) as H. unfold Z.sub in H.
  rewrite inject_Z_plus in H. exact H.
Qed.

(** The rounded value is within one half of the argument. *)
Lemma rint_close (x : Q) :
  - (1 # 2) <= x - inject_Z (rint x) <= 1 # 2.
Proof.
  destruct (floor_bounds x) as [H1 H2].
  destruct (rint_cases x) as [[-> H] | [-> H]].
  - split; lra.
  - rewrite inject_Z_plus. change (inject_Z 1) with 1. split; lra.
Qed.

Lemma rint_ge_int (n : Z) (x : Q) : inject_Z n <= x -> (n <= rint x)%Z.
Proof.
  intros H. assert (Hf : (n <= Qfloor x)%Z).
  { rewrite <- (Qfloor_Z n). now apply Qfloor_resp_le. }
  destruct (rint_cases x) as [[-> _] | [-> _]]; lia.
Qed.

Lemma rint_le_int (n : Z) (x : Q) : x <= inject_Z n -> (rint x <= n)%Z.
Proof.
  intros H. destruct (floor_bounds x) as [H1 H2].
  destruct (rint_cases x) as [[-> _] | [-> Hd]].
  - rewrite Zle_Qle. lra.
  - assert (Hlt : inject_Z (Qfloor x) < inject_Z n) by lra.
    rewrite <- Zlt_Qlt in Hlt. lia.
Qed.

Lemma rint_of_int (n : Z) (x : Q) : x == inject_Z n -> rint x = n.
Proof.
  intros H. apply Z.le_antisymm.
  - apply rint_le_int. lra.
  - apply rint_ge_int. lra.
Qed.

Lemma round1_value (x : Q) : round1 x == inject_Z (rint (x * 10)) / 10.
Proof.
  unfold round1. rewrite Qred_correct. unfold Qdiv.
  change (/ 10) with (1 # 10). unfold Qeq, Qmult, inject_Z. simpl. lia.
Qed.

(** Rounding to one decimal moves a number by at most 0.05. *)
Lemma round1_close (x : Q) :
  - (1 # 20) <= x - round1 x <= 1 # 20.
Proof.
  rewrite round1_value. pose proof (rint_close (x * 10)) as H.
  unfold Qdiv. change (/ 10) with (1 # 10). lra.
Qed.

(** A number with one decimal is its own rounding. *)
Lemma round1_fix (n : Z) (x : Q) : x * 10 == inject_Z n -> round1 x == x.
Proof.
  intros H. rewrite round1_value, (rint_of_int n _ H).
  unfold Qdiv. change (/ 10) with (1 # 10). lra.
Qed.

(** Rounding does not cross a bound that has one decimal. *)
Lemma round1_ge (n : Z) (lo x : Q) :
  lo * 10 == inject_Z n -> lo <= x -> lo <= round1 x.
Proof.
  intros Hn H. rewrite round1_value.
  assert (Hr : (n <= rint (x * 10))%Z) by (apply rint_ge_int; lra).
  rewrite Zle_Qle in Hr. unfold Qdiv. change (/ 10) with (1 # 10). lra.
Qed.

Lemma round1_le (n : Z) (hi x : Q) :
  hi * 10 == inject_Z n -> x <= hi -> round1 x <= hi.
Proof.
  intros Hn H. rewrite round1_value.
  assert (Hr : (rint (x * 10) <= n)%Z) by (apply rint_le_int; lra).
  rewrite Zle_Qle in Hr. unfold Qdiv. change (/ 10) with (1 # 10). lra.
Qed.

End RoundFacts.

(* ================================================================= *)
(** ** Slider range, range filter and headline figures *)

Module Tab1Facts.
Import Num NumFacts RoundFacts Tab1.

Lemma fold_min_spec (t : list Q) (x : Q) :
  (forall y, In y (x :: t) -> fold_left Qmin t x <= y) /\
  (exists y, In y (x :: t) /\ fold_left Qmin t x == y).
Proof.
  revert x. induction t as [|z t IH]; intros x; simpl.
  - split.
    + intros y [<- | []]. lra.
    + exists x. split; [now left | reflexivity].
  - destruct (IH (Qmin x z)) as [Hle (y & Hy & Heq)]. split.
    + intros y' [<- | [<- | H]].
      * pose proof (Hle _ (or_introl eq_refl)). pose proof (Q.le_min_l x z). lra.
      * pose proof (Hle _ (or_introl eq_refl)). pose proof (Q.le_min_r x z). lra.
      * apply Hle. now right.
    + destruct Hy as [<- | Hy].
      * destruct (Q.min_spec x z) as [[_ E] | [_ E]].
        -- exists x. split; [now left | now rewrite Heq].
        -- exists z. split; [right; now left | now rewrite Heq].
      * exists y. split; [right; now right | exact Heq].
Qed.

Lemma fold_max_spec (t : list Q) (x : Q) :
  (forall y, In y (x :: t) -> y <= fold_left Qmax t x) /\
  (exists y, In y (x :: t) /\ fold_left Qmax t x == y).
Proof.
  revert x. induction t as [|z t IH]; intros x; simpl.
  - split.
    + intros y [<- | []]. lra.
    + exists x. split; [now left | reflexivity].
  - destruct (IH (Qmax x z)) as [Hle (y & Hy & Heq)]. split.
    + intros y' [<- | [<- | H]].
      * pose proof (Hle _ (or_introl eq_refl)). pose proof (Q.le_max_l x z). lra.
      * pose proof (Hle _ (or_introl eq_refl)). pose proof (Q.le_max_r x z). lra.
      * apply Hle. now right.
    + destruct Hy as [<- | Hy].
      * destruct (Q.max_spec x z) as [[_ E] | [_ E]].
        -- exists z. split; [right; now left | now rewrite Heq].
        -- exists x. split; [now left | now rewrite Heq].
      * exists y. split; [right; now right | exact Heq].
Qed.

Lemma spread_range_bounds (df : list raw_row) (lo hi : Q) :
  df <> [] ->
  get_spread_range_from_data df = Some (lo, hi) ->
  (forall s, In s (spreads df) -> lo <= s <= hi) /\
  (exists a b : Z, lo == inject_Z a / 2 /\ hi == inject_Z b / 2) /\
  (exists s, In s (spreads df) /\ s - (1 # 2) < lo) /\
  (exists s, In s (spreads df) /\ hi < s + (1 # 2)).
Proof.
  intros Hne. unfold get_spread_range_from_data.
  destruct df as [|r0 df0]; [congruence|].
  destruct (spreads (r0 :: df0)) as [|x t]; [discriminate|].
  unfold series_min, series_max. intros H.
  assert (E1 : lo = inject_Z (Qfloor (fold_left Qmin t x * 2)) / 2)
    by congruence.
  assert (E2 : hi = inject_Z (Qceiling (fold_left Qmax t x * 2)) / 2)
    by congruence.
  clear H. subst lo hi.
  destruct (fold_min_spec t x) as [Hmin (ymin & Hymin & Emin)].
  destruct (fold_max_spec t x) as [Hmax (ymax & Hymax & Emax)].
  destruct (floor_bounds (fold_left Qmin t x * 2)) as [F1 F2].
  destruct (ceiling_bounds (fold_left Qmax t x * 2)) as [C1 C2].
  unfold Qdiv. change (/ 2) with (1 # 2).
  split; [|split; [|split]].
  - intros s Hs. specialize (Hmin s Hs). specialize (Hmax s Hs). split; lra.
  - do 2 eexists. split; reflexivity.
  - exists ymin. split; [exact Hymin | lra].
  - exists ymax. split; [exact Hymax | lra].
Qed.

(** X1.  The slider bounds enclose every spread of the frame, are whole or
    half points, and lie less than half a point beyond the least and
    the greatest spread. *)
Theorem spread_range_encloses (df : list raw_row) (lo hi : Q) :
  df <> [] ->
  get_spread_range_from_data df = Some (lo, hi) ->
  (forall s, In s (spreads df) -> lo <= s <= hi) /\
  (exists a b : Z, lo == inject_Z a / 2 /\ hi == inject_Z b / 2) /\
  (exists s, In s (spreads df) /\ s - (1 # 2) < lo) /\
  (exists s, In s (spreads df) /\ hi < s + (1 # 2)).
Proof. apply spread_range_bounds. Qed.


Lemma list_eq_dec_nil {A} (l : list A) : l = [] \/ l <> [].
Proof. destruct l; [now left | right; discriminate]. Qed.

Lemma spreads_In (df : list raw_row) (r : raw_row) (s : Q) :
  In r df -> home_spread r = Some s -> In s (spreads df).
Proof.
  intros Hr Hs. unfold spreads. apply in_flat_map. exists r.
  split; [exact Hr|]. rewrite Hs. now left.
Qed.

Lemma df_filtered_all (range : Q * Q) (l : list raw_row) :
  (forall r s, In r l -> home_spread r = Some s ->
               fst range <= round1 s <= snd range) ->
  df_filtered range l = with_spread l.
Proof.
  induction l as [|r l IH]; intros Hall; [reflexivity|].
  simpl. rewrite IH by (intros r' s' Hr'; apply Hall; now right).
  destruct (home_spread r) as [s|] eqn:Es; [|reflexivity].
  destruct (Hall r s (or_introl eq_refl) Es) as [H1 H2].
  apply Qle_bool_iff in H1. apply Qle_bool_iff in H2.
  rewrite H1, H2. reflexivity.
Qed.

(** X3.  With the slider at its full range the filter keeps every row that
    has a spread: rounding to one decimal never carries a spread
    across the half-point bounds. *)
Theorem full_range_filter_keeps_all (df_raw : list raw_row) (range : Q * Q) :
  get_spread_range_from_data df_raw = Some range ->
  df_filtered range df_raw = with_spread df_raw.
Proof.
  intros H. destruct (list_eq_dec_nil df_raw) as [-> | Hne]; [reflexivity|].
  destruct range as [lo hi].
  destruct (spread_range_bounds df_raw lo hi Hne H)
    as (Hin & (a & b & Ha & Hb) & _).
  apply df_filtered_all. intros r s Hr Es. simpl fst. simpl snd.
  assert (Hs : lo <= s <= hi).
  { apply Hin. eapply spreads_In; [exact Hr | exact Es]. }
  split.
  - apply (round1_ge (5 * a)); [|lra].
    rewrite inject_Z_mult. change (inject_Z 5) with 5. rewrite Ha.
    unfold Qdiv. change (/ 2) with (1 # 2). lra.
  - apply (round1_le (5 * b)); [|lra].
    rewrite inject_Z_mult. change (inject_Z 5) with 5. rewrite Hb.
    unfold Qdiv. change (/ 2) with (1 # 2). lra.
Qed.

Lemma df_filtered_In (range : Q * Q) (df_raw : list raw_row) (x : Rebin.row) :
  In x (df_filtered range df_raw) <->
  exists r s, In r df_raw /\ home_spread r = Some s /\ x = to_row s r /\
              fst range <= round1 s <= snd range.
Proof.
  unfold df_filtered. rewrite in_flat_map. split.
  - intros (r & Hr & H). destruct (home_spread r) as [s|] eqn:Es; [|destruct H].
    destruct (Qle_bool_spec (fst range) (round1 s)) as [H1|]; [|destruct H].
    destruct (Qle_bool_spec (round1 s) (snd range)) as [H2|]; [|destruct H].
    destruct H as [<- | []]. exists r, s. auto.
  - intros (r & s & Hr & Es & -> & H1 & H2). exists r. split; [exact Hr|].
    rewrite Es. apply Qle_bool_iff in H1. apply Qle_bool_iff in H2.
    rewrite H1, H2. now left.
Qed.

End Tab1Facts.

(* ================================================================= *)
(** ** Headline figures *)

Module HeadlineFacts.
Import Num NumFacts Tab1.


End HeadlineFacts.

(* ================================================================= *)
(** ** Rebinning: order, intervals and the least spread *)

Module BucketFacts.
Import Num NumFacts RoundFacts Rebin RebinFacts.

Lemma upsert_length k r acc :
  (List.length (upsert k r acc) <= S (List.length acc))%nat.
Proof.
  induction acc as [|g rest IH]; simpl; [lia|].
  destruct (k ?= g_bin_floor g); simpl; lia.
Qed.

Lemma groupby_length w df :
  (List.length (groupby w df) <= List.length df)%nat.
Proof.
  induction df as [|r df IH] using rev_ind; [simpl; lia|].
  rewrite groupby_snoc, length_app. simpl.
  pose proof (upsert_length (bin_floor w r) r (groupby w df)). lia.
Qed.

(** X5.  For a width of the slider, the output of the rebinning lists its
    buckets in strictly ascending key order, has no more buckets than there are rows, and
    is empty only for an empty frame. *)
Theorem rebin_output_ascending (df : list row) (w : Q) :
  In w bin_size_options ->
  ascending (map grp (rebin_data df w)) /\
  (List.length (rebin_data df w) <= List.length df)%nat /\
  (rebin_data df w = [] <-> df = []).
Proof.
  intros _. rewrite rebin_data_eq, map_map. simpl. rewrite map_id.
  split; [apply groupby_ascending|]. split.
  - rewrite length_map. apply groupby_length.
  - split.
    + intros E. destruct df as [|r df]; [reflexivity|].
      destruct (groupby_covers w (r :: df) r (or_introl eq_refl))
        as (g & Hg & _).
      apply map_eq_nil in E. rewrite E in Hg. destruct Hg.
    + intros ->. reflexivity.
Qed.

(** The widths of the slider are positive multiples of one half. *)
Lemma bin_size_half_steps (w : Q) :
  In w bin_size_options ->
  exists k : Z, (0 < k)%Z /\ w == inject_Z k / 2.
Proof.
  unfold bin_size_options. simpl.
  intros [<- | [<- | [<- | [<- | [<- | [<- | [<- | [<- | [<- | []]]]]]]]]];
    [exists 1%Z | exists 2%Z | exists 3%Z | exists 4%Z | exists 5%Z
     | exists 6%Z | exists 7%Z | exists 8%Z | exists 10%Z];
    split; try lia; reflexivity.
Qed.

(** The key as a whole number of widths. *)
Lemma bin_floor_multiple (w : Q) (r : row) :
  In w bin_size_options ->
  bin_floor w r == inject_Z (Qfloor (round1 (home_spread r) / w)) * w.
Proof.
  intros Hw. destruct (bin_size_half_steps w Hw) as (k & Hk & Ew).
  unfold bin_floor, floordiv.
  set (m := Qfloor (round1 (home_spread r) / w)).
  apply (round1_fix (m * k * 5)).
  rewrite !inject_Z_mult. change (inject_Z 5) with 5. rewrite Ew.
  unfold Qdiv. change (/ 2) with (1 # 2). ring.
Qed.

Lemma bin_floor_interval (w : Q) (r : row) :
  In w bin_size_options ->
  (exists m : Z, bin_floor w r == inject_Z m * w) /\
  bin_floor w r <= round1 (home_spread r) /\
  round1 (home_spread r) < bin_floor w r + w /\
  bin_floor w r - (1 # 20) <= home_spread r /\
  home_spread r < bin_floor w r + w + (1 # 20).
Proof.
  intros Hw. pose proof (bin_floor_multiple w r Hw) as E.
  destruct (bin_size_half_steps w Hw) as (k & Hk & Ew).
  assert (Hpos : 0 < w).
  { rewrite Ew. apply Qlt_shift_div_l; [reflexivity|].
    rewrite Qmult_0_l. change 0 with (inject_Z 0). rewrite <- Zlt_Qlt. lia. }
  set (x := round1 (home_spread r)) in *.
  destruct (floor_bounds (x / w)) as [F1 F2].
  set (m := inject_Z (Qfloor (x / w))) in *.
  assert (L : m * w <= x).
  { apply Qmult_le_r with (z := / w); [now apply Qinv_lt_0_compat|].
    rewrite <- Qmult_assoc, Qmult_inv_r, Qmult_1_r by lra. exact F1. }
  assert (U : x < (m + 1) * w).
  { apply Qmult_lt_r with (z := / w); [now apply Qinv_lt_0_compat|].
    rewrite <- (Qmult_assoc (m + 1)), Qmult_inv_r, Qmult_1_r by lra. exact F2. }
  pose proof (round1_close (home_spread r)) as C. fold x in C.
  split; [eexists; exact E|]. rewrite E.
  repeat split; lra.
Qed.

(** X6.  For a width of the slider, the key of a row's bucket is a whole
    number of widths (the final rounding changes nothing) and the
    bucket's interval [key, key + w) holds the row's spread rounded to
    one decimal, which is within 0.05 of the spread. *)
Theorem bucket_interval_holds_spread (w : Q) (r : row) :
  In w bin_size_options ->
  (exists m : Z, bin_floor w r == inject_Z m * w) /\
  bin_floor w r <= round1 (home_spread r) /\
  round1 (home_spread r) < bin_floor w r + w /\
  bin_floor w r - (1 # 20) <= home_spread r /\
  home_spread r < bin_floor w r + w + (1 # 20).
Proof. apply bin_floor_interval. Qed.

End BucketFacts.

(* ================================================================= *)
(** ** Rebinning: the least spread of a bucket and the chart order *)

Module ChartOrderFacts.
Import Num NumFacts RoundFacts Rebin RebinFacts BucketFacts.

Lemma rint_compat (x y : Q) : x == y -> rint x = rint y.
Proof.
  intros H. unfold rint.
  assert (Hf : Qfloor x = Qfloor y) by (apply Qfloor_comp; exact H).
  rewrite Hf.
  destruct (Qlt_bool_spec (x - inject_Z (Qfloor y)) (1 # 2));
    destruct (Qlt_bool_spec (y - inject_Z (Qfloor y)) (1 # 2));
    try (exfalso; lra); try reflexivity.
  destruct (Qlt_bool_spec (1 # 2) (x - inject_Z (Qfloor y)));
    destruct (Qlt_bool_spec (1 # 2) (y - inject_Z (Qfloor y)));
    try (exfalso; lra); reflexivity.
Qed.

Lemma rint_mono (x y : Q) : x <= y -> (rint x <= rint y)%Z.
Proof.
  intros H. destruct (Z_le_gt_dec (rint x) (rint y)) as [Hle | Hgt];
    [exact Hle | exfalso].
  pose proof (rint_close x) as Cx. pose proof (rint_close y) as Cy.
  assert (Hz : (rint y + 1 <= rint x)%Z) by lia.
  rewrite Zle_Qle, inject_Z_plus in Hz. change (inject_Z 1) with 1 in Hz.
  assert (E : x == y) by lra.
  apply rint_compat in E. lia.
Qed.

Lemma round1_mono (x y : Q) : x <= y -> round1 x <= round1 y.
Proof.
  intros H. rewrite !round1_value.
  assert (Hr : (rint (x * 10) <= rint (y * 10))%Z) by (apply rint_mono; lra).
  rewrite Zle_Qle in Hr. unfold Qdiv. change (/ 10) with (1 # 10). lra.
Qed.

(** The recorded spread of a group is the least spread of its rows. *)
Lemma groupby_least_spread w df g :
  In g (groupby w df) ->
  (forall r, In r (members w (g_bin_floor g) df) ->
             g_home_spread g <= home_spread r) /\
  (exists r, In r (members w (g_bin_floor g) df)
             /\ g_home_spread g == home_spread r).
Proof.
  revert g. induction df as [|r0 df IH] using rev_ind; [intros g []|].
  intros g. rewrite groupby_snoc. intros H.
  assert (Hm : forall k r, In r (members w k (df ++ [r0])) <->
                           In r (members w k df)
                           \/ (r = r0 /\ bin_floor w r0 == k)).
  { intros k r. rewrite !members_In, in_app_iff. simpl. split.
    - intros [[Hr | [<- | []]] Hk]; [left | right]; auto.
    - intros [[Hr Hk] | [-> Hk]]; auto. }
  destruct (upsert_origin _ _ _ _ (groupby_ascending w df) H)
    as [[-> Hno] | [(g0 & Hg0 & Hk & ->) | [Hin Hk]]].
  - simpl. split.
    + intros r Hr. apply Hm in Hr. destruct Hr as [Hr | [-> _]]; [|lra].
      exfalso. apply members_In in Hr. destruct Hr as [Hr Hkr].
      destruct (groupby_covers w df r Hr) as (g1 & Hg1 & Hk1).
      apply (Hno g1 Hg1). now rewrite Hk1.
    + exists r0. split; [|reflexivity]. apply Hm. right. split; reflexivity.
  - simpl. destruct (IH _ Hg0) as [Hle (r1 & Hr1 & E1)]. split.
    + intros r Hr. apply Hm in Hr. destruct Hr as [Hr | [-> _]].
      * specialize (Hle r Hr). pose proof (Q.le_min_l (g_home_spread g0)
                                             (home_spread r0)). lra.
      * apply Q.le_min_r.
    + destruct (Q.min_spec (g_home_spread g0) (home_spread r0))
        as [[_ E] | [_ E]].
      * exists r1. split; [apply Hm; now left | now rewrite E].
      * exists r0. split; [|exact E]. apply Hm. right.
        split; [reflexivity | now symmetry].
  - destruct (IH _ Hin) as [Hle (r1 & Hr1 & E1)]. split.
    + intros r Hr. apply Hm in Hr. destruct Hr as [Hr | [-> Hk0]].
      * now apply Hle.
      * exfalso. apply Hk. now symmetry.
    + exists r1. split; [apply Hm; now left | exact E1].
Qed.

(** X7.  For a width of the slider, the spread a bucket records is the
    least spread among its rows, and buckets in ascending key order
    are also in ascending order of that spread, the field the charts
    sort by. *)
Theorem chart_order_is_bucket_order (w : Q) (df : list row) (b1 b2 : bucket) :
  In w bin_size_options ->
  In b1 (rebin_data df w) -> In b2 (rebin_data df w) ->
  (forall r, In r (members w (g_bin_floor (grp b1)) df) ->
             g_home_spread (grp b1) <= home_spread r) /\
  (exists r, In r (members w (g_bin_floor (grp b1)) df)
             /\ g_home_spread (grp b1) == home_spread r) /\
  (g_bin_floor (grp b1) < g_bin_floor (grp b2) ->
   g_home_spread (grp b1) < g_home_spread (grp b2)).
Proof.
  intros Hw H1 H2.
  apply rebin_data_In in H1. destruct H1 as (g1 & Hg1 & ->).
  apply rebin_data_In in H2. destruct H2 as (g2 & Hg2 & ->). simpl.
  destruct (groupby_least_spread w df g1 Hg1) as [Hle1 (r1 & Hr1 & E1)].
  destruct (groupby_least_spread w df g2 Hg2) as [_ (r2 & Hr2 & E2)].
  split; [exact Hle1|]. split; [exists r1; auto|].
  intros Hlt.
  apply members_In in Hr1. destruct Hr1 as [_ K1].
  apply members_In in Hr2. destruct Hr2 as [_ K2].
  destruct (bin_floor_interval w r1 Hw) as ((m1 & M1) & _ & U1 & _).
  destruct (bin_floor_interval w r2 Hw) as ((m2 & M2) & L2 & _).
  destruct (bin_size_half_steps w Hw) as (k & Hk & Ew).
  assert (Hpos : 0 < w).
  { rewrite Ew. apply Qlt_shift_div_l; [reflexivity|].
    rewrite Qmult_0_l. change 0 with (inject_Z 0). rewrite <- Zlt_Qlt. lia. }
  assert (Hmm : inject_Z m1 * w < inject_Z m2 * w) by lra.
  apply Qmult_lt_r in Hmm; [|exact Hpos].
  rewrite <- Zlt_Qlt in Hmm.
  assert (Hstep : (m1 + 1 <= m2)%Z) by lia.
  rewrite Zle_Qle, inject_Z_plus in Hstep. change (inject_Z 1) with 1 in Hstep.
  assert (Hw2 : (inject_Z m1 + 1) * w <= inject_Z m2 * w).
  { apply Qmult_le_r; [exact Hpos | exact Hstep]. }
  assert (Hround : round1 (home_spread r1) < round1 (home_spread r2)) by lra.
  rewrite E1, E2. apply Qnot_le_lt. intros Hge.
  apply round1_mono in Hge. lra.
Qed.

End ChartOrderFacts.

(* ================================================================= *)
(** ** The two sides of a game *)

Module MirrorFacts.
Import Num NumFacts Perf Tab2.


(** X9.  For a threshold [t > 0] and a margin other than 0, the luck bucket
    of the opposite margin is the mirror bucket (Convincing Win against
    Blowout Loss, Lucky Win against Bad Beat); a margin of 0 is a Bad
    Beat seen from both sides. *)
Theorem classify_luck_mirrors (t margin : Q) :
  0 < t ->
  (~ margin == 0 ->
   (classify_luck t margin = Convincing_Win
    <-> classify_luck t (- margin) = Blowout_Loss) /\
   (classify_luck t margin = Lucky_Win
    <-> classify_luck t (- margin) = Bad_Beat) /\
   (classify_luck t margin = Bad_Beat
    <-> classify_luck t (- margin) = Lucky_Win) /\
   (classify_luck t margin = Blowout_Loss
    <-> classify_luck t (- margin) = Convincing_Win)) /\
  (margin == 0 ->
   classify_luck t margin = Bad_Beat /\ classify_luck t (- margin) = Bad_Beat).
Proof.
  intros Ht. unfold classify_luck.
  qcases; split; intros; repeat split; intros;
    try discriminate; try reflexivity; try (exfalso; lra).
Qed.

End MirrorFacts.

(* ================================================================= *)
(** ** Pool-wide baselines: totals *)

Module PoolFacts.
Import Num NumFacts Tab2 Tab2b Baseline Totals.

Lemma luck_add_total b v c : luck_total (luck_add b v c) == luck_total c + v.
Proof. destruct b; unfold luck_total; simpl; ring. Qed.

Lemma luck_add_nonneg b v c :
  0 <= v -> (forall b', 0 <= luck_get c b') ->
  forall b', 0 <= luck_get (luck_add b v c) b'.
Proof.
  intros Hv Hc b'.
  pose proof (Hc Blowout_Loss). pose proof (Hc Bad_Beat).
  pose proof (Hc Lucky_Win). pose proof (Hc Convincing_Win).
  destruct b, b'; simpl in *; lra.
Qed.

Lemma pool_luck_loop_eq t df :
  pool_luck_loop t df = fold_left (luck_step t) df (mkLuck 0 0 0 0, 0).
Proof. reflexivity. Qed.

Lemma luck_fold_total t df acc :
  luck_total (fst acc) == snd acc ->
  luck_total (fst (fold_left (luck_step t) df acc))
  == snd (fold_left (luck_step t) df acc).
Proof.
  revert acc. induction df as [|row df IH]; intros acc H; [exact H|].
  simpl. apply IH. unfold luck_step.
  destruct (home_margin row); [|exact H]. simpl.
  rewrite !luck_add_total, H. ring.
Qed.

Lemma luck_fold_weight t df acc :
  snd (fold_left (luck_step t) df acc)
  == snd acc + 100 * inject_Z (Z.of_nat (List.length (finished df))).
Proof.
  revert acc. induction df as [|row df IH]; intros acc.
  - simpl. ring.
  - simpl fold_left. rewrite IH. unfold luck_step, finished. simpl filter.
    fold (finished df).
    destruct (home_margin row).
    + cbn [snd List.length]. rewrite Nat2Z.inj_succ, <- Z.add_1_r, inject_Z_plus.
      change (inject_Z 1) with 1. ring.
    + ring.
Qed.

Lemma luck_fold_nonneg t df acc :
  (forall row p, In row df -> g_home_pick_pct row = Some p -> 0 <= p <= 100) ->
  (forall b, 0 <= luck_get (fst acc) b) ->
  forall b, 0 <= luck_get (fst (fold_left (luck_step t) df acc)) b.
Proof.
  revert acc. induction df as [|row df IH]; intros acc Hp H; [exact H|].
  simpl. apply IH; [intros r p Hr; apply Hp; now right|].
  unfold luck_step. destruct (home_margin row); [|exact H]. simpl.
  assert (Hq : 0 <= Perf.fillna 50 (g_home_pick_pct row) <= 100).
  { destruct (g_home_pick_pct row) as [p|] eqn:E; simpl.
    - apply (Hp row p); [now left | exact E].
    - split; discriminate. }
  apply luck_add_nonneg; [lra|]. apply luck_add_nonneg; [lra | exact H].
Qed.

Lemma length_pos_Q (A : Type) (l : list A) :
  l <> [] -> 0 < inject_Z (Z.of_nat (List.length l)).
Proof.
  intros H. change 0 with (inject_Z 0). rewrite <- Zlt_Qlt.
  destruct l; [congruence | simpl; lia].
Qed.

(** X10.  The pool-wide luck baseline is empty exactly when no game has a
    margin; otherwise it lists the four buckets in their order with
    percentages that add up to 100, each within [0, 100] when every
    home-pick percentage is. *)
Theorem pool_luck_percentages (t : Q) (df : list global_row) :
  (pool_display_data t df = [] <-> finished df = []) /\
  (finished df <> [] ->
   map fst (pool_display_data t df) = luck_order /\
   Qsum (map snd (pool_display_data t df)) == 100 /\
   ((forall row p, In row df -> g_home_pick_pct row = Some p ->
                   0 <= p <= 100) ->
    forall x, In x (pool_display_data t df) -> 0 <= snd x <= 100)).
Proof.
  unfold pool_display_data. rewrite pool_luck_loop_eq.
  set (acc := fold_left (luck_step t) df (mkLuck 0 0 0 0, 0)).
  assert (Hw : snd acc == 100 * inject_Z (Z.of_nat (List.length (finished df)))).
  { subst acc. rewrite luck_fold_weight. simpl. ring. }
  assert (Ht : luck_total (fst acc) == snd acc).
  { subst acc. apply luck_fold_total. reflexivity. }
  destruct (finished df) as [|row0 rest] eqn:Ef.
  - simpl in Hw. change (inject_Z 0) with 0 in Hw.
    destruct (Qlt_bool_spec 0 (snd acc)) as [H | _]; [lra|].
    split; [split; reflexivity | congruence].
  - assert (Hpos : 0 < snd acc).
    { rewrite Hw. pose proof (length_pos_Q _ (row0 :: rest)) as L.
      assert (row0 :: rest <> []) by discriminate. specialize (L H). lra. }
    destruct (Qlt_bool_spec 0 (snd acc)) as [_ | N]; [|contradiction].
    split; [split; discriminate|]. intros _.
    split; [reflexivity|]. split.
    + unfold luck_total in Ht. simpl. field_simplify_eq; [|lra].
      rewrite <- Ht. ring.
    + intros Hp x Hx.
      assert (Hnn : forall b, 0 <= luck_get (fst acc) b).
      { subst acc. apply luck_fold_nonneg; [exact Hp|].
        intros b; destruct b; simpl; lra. }
      pose proof (Hnn Blowout_Loss). pose proof (Hnn Bad_Beat).
      pose proof (Hnn Lucky_Win). pose proof (Hnn Convincing_Win).
      unfold luck_total in Ht.
      assert (Hb : forall b, 0 <= luck_get (fst acc) b / snd acc * 100 <= 100).
      { intros b.
        assert (0 <= luck_get (fst acc) b <= snd acc).
        { destruct b; simpl in *; split; lra. }
        assert (0 <= luck_get (fst acc) b / snd acc).
        { apply Qle_shift_div_l; [exact Hpos | lra]. }
        assert (luck_get (fst acc) b / snd acc <= 1).
        { apply Qle_shift_div_r; [exact Hpos | lra]. }
        split; lra. }
      apply in_map_iff in Hx. destruct Hx as (b & <- & _). simpl. apply Hb.
Qed.

End PoolFacts.

(* ================================================================= *)
(** ** Pool-wide herd baselines: totals *)

Module HerdPoolFacts.
Import Num NumFacts Tab2 Baseline Totals.

Lemma add_total k v c : counts_total (add k v c) == counts_total c + v.
Proof. destruct k; unfold counts_total; simpl; ring. Qed.

Lemma herd_loop_fold_total (l : list consensus_row) (acc : counts * Z) :
  counts_total (fst acc) == inject_Z (snd acc) ->
  let out :=
    fold_left
      (fun (acc : counts * Z) row =>
         let n_picks := inject_Z (total_picks row) in
         let p_home := home_pick_pct row in
         let p_away := 100 - p_home in
         let c1 := add (side_category p_home) (n_picks * (p_home / 100))
                       (fst acc) in
         let c2 := add (side_category p_away) (n_picks * (p_away / 100)) c1 in
         (c2, (snd acc + total_picks row)%Z))
      l acc in
  counts_total (fst out) == inject_Z (snd out) /\
  snd out = (snd acc + Zsum (map total_picks l))%Z.
Proof.
  revert acc. induction l as [|row l IH]; intros acc H; cbv zeta.
  - simpl. split; [exact H | lia].
  - simpl fold_left. cbv zeta in IH.
    match goal with
    | |- context [fold_left ?f l ?a] => destruct (IH a) as [I1 I2]
    end.
    + simpl. rewrite !add_total, H, inject_Z_plus. by100. ring.
    + split; [exact I1|]. rewrite I2. simpl. lia.
Qed.

Lemma herd_distribution_total (all_consensus : list consensus_row) :
  (get_global_herd_distribution all_consensus = None <->
   all_consensus = [] \/ (Zsum (map total_picks all_consensus) <= 0)%Z) /\
  (forall c, get_global_herd_distribution all_consensus = Some c ->
             herd c + contrarian c + neutral c == 1).
Proof.
  unfold get_global_herd_distribution.
  destruct all_consensus as [|r0 l]; [split; [tauto | discriminate]|].
  unfold herd_loop.
  destruct (herd_loop_fold_total (r0 :: l) (zero, 0%Z)) as [I1 I2];
    [reflexivity|].
  cbv zeta in I1, I2.
  destruct (fold_left _ (r0 :: l) (zero, 0%Z)) as [c total] eqn:E.
  simpl fst in I1. simpl snd in I1, I2.
  destruct (Z.ltb_spec 0 total) as [Hpos | Hnpos].
  - split.
    + split; [discriminate|]. intros [H | H]; [discriminate | lia].
    + intros c' H. injection H as <-. simpl.
      unfold counts_total in I1.
      assert (0 < inject_Z total).
      { change 0 with (inject_Z 0). now rewrite <- Zlt_Qlt. }
      field_simplify_eq; [|lra]. rewrite <- I1. ring.
  - split; [|discriminate].
    split; [intros _; right; lia | reflexivity].
Qed.

(** X11.  The pool-wide herd distribution is returned exactly when some pick
    is counted, and its three frequencies then add up to 1: each game
    contributes its picks once, split between its two sides. *)
Theorem herd_distribution_sums_to_one (all_consensus : list consensus_row) :
  (get_global_herd_distribution all_consensus = None <->
   all_consensus = [] \/ (Zsum (map total_picks all_consensus) <= 0)%Z) /\
  (forall c, get_global_herd_distribution all_consensus = Some c ->
             herd c + contrarian c + neutral c == 1).
Proof. apply herd_distribution_total. Qed.

Lemma to_baseline_rows_some (l : list Perf.consensus)
    (rows : list consensus_row) :
  Batches.to_baseline_rows l = Some rows ->
  List.length rows = List.length l /\
  forall c, In c l -> Perf.c_home_pick_pct c <> None.
Proof.
  revert rows. induction l as [|c l IH]; intros rows; simpl.
  - intros H. injection H as <-. split; [reflexivity | intros c []].
  - destruct (Perf.c_home_pick_pct c) as [p|] eqn:E; [|discriminate].
    destruct (Batches.to_baseline_rows l) as [rs|]; [|discriminate].
    intros H. injection H as <-. destruct (IH rs eq_refl) as [H1 H2].
    split; [simpl; congruence|].
    intros c' [<- | Hc']; [congruence | now apply H2].
Qed.

(** X12.  From the store, the herd distribution is only returned when a
    client exists, some game of the selected seasons exists, every
    collected consensus row carries a percentage and some pick is
    counted; and what is returned adds up to 1. *)
Theorem store_herd_distribution (client : option Perf.backend)
    (seasons : list Z) (c : counts) :
  Batches.get_global_herd_distribution client seasons = Some c ->
  herd c + contrarian c + neutral c == 1 /\
  exists be,
    client = Some be /\
    let ids := map Perf.game_id
                   (filter (fun g => Perf.mem_Z (Perf.season g) seasons)
                           (Perf.table_game be)) in
    ids <> [] /\
    Batches.all_consensus (Perf.get_game_consensus be) ids <> [] /\
    forall row, In row (Batches.all_consensus (Perf.get_game_consensus be) ids) ->
                Perf.c_home_pick_pct row <> None.
Proof.
  unfold Batches.get_global_herd_distribution.
  destruct client as [be|]; [|discriminate].
  set (ids := map Perf.game_id _).
  destruct ids as [|i0 rest] eqn:Ei; [discriminate|]. rewrite <- Ei.
  destruct (Batches.to_baseline_rows _) as [rows|] eqn:Er; [|discriminate].
  intros H. split.
  - exact (proj2 (herd_distribution_total rows) c H).
  - exists be. split; [reflexivity|]. cbv zeta. fold ids. rewrite Ei.
    rewrite <- Ei. split; [rewrite Ei; discriminate|].
    destruct (to_baseline_rows_some _ _ Er) as [Hlen Hall].
    split; [|exact Hall].
    intros E. rewrite E in Hlen. destruct rows; [|discriminate Hlen].
    unfold get_global_herd_distribution in H. discriminate H.
Qed.








End HerdPoolFacts.

(* ================================================================= *)
(** ** Batches *)

Module BatchFacts.
Import Perf Batches.

Lemma batches_from {A} (b n : nat) (l : list A) :
  (List.length l <= n * b)%nat ->
  List.concat (map (fun j => firstn b (skipn (j * b) l)) (seq 0 n)) = l.
Proof.
  revert l. induction n as [|n IH]; intros l H.
  - simpl in *. destruct l; [reflexivity | simpl in H; lia].
  - rewrite <- cons_seq, <- seq_shift, map_cons, map_map. simpl List.concat.
    transitivity (firstn b l ++ skipn b l); [|apply firstn_skipn].
    f_equal.
    etransitivity; [|apply (IH (skipn b l)); rewrite length_skipn; lia].
    f_equal. apply map_ext. intros j.
    rewrite skipn_skipn. f_equal. f_equal. lia.
Qed.

(** X14.  Cutting the identifiers into batches loses, repeats and reorders
    nothing, and no batch is empty or longer than the batch size. *)
Theorem batches_cover_all_ids {A} (batch_size : nat) (ids : list A) :
  (0 < batch_size)%nat ->
  List.concat (batches batch_size ids) = ids /\
  (forall batch, In batch (batches batch_size ids) ->
                 (0 < List.length batch <= batch_size)%nat).
Proof.
  intros Hb. unfold batches.
  set (n := ((List.length ids + batch_size - 1) / batch_size)%nat).
  assert (Hn : (List.length ids <= n * batch_size)%nat).
  { subst n.
    pose proof (Nat.div_mod (List.length ids + batch_size - 1) batch_size) as D.
    pose proof (Nat.mod_upper_bound (List.length ids + batch_size - 1)
                                    batch_size) as M.
    specialize (D ltac:(lia)). specialize (M ltac:(lia)). nia. }
  split; [now apply batches_from|].
  intros batch H. apply in_map_iff in H. destruct H as (j & <- & Hj).
  apply in_seq in Hj. rewrite length_firstn, length_skipn.
  assert (Hlt : (j * batch_size < List.length ids)%nat).
  { subst n.
    pose proof (Nat.div_mod (List.length ids + batch_size - 1) batch_size) as D.
    pose proof (Nat.mod_upper_bound (List.length ids + batch_size - 1)
                                    batch_size) as M.
    specialize (D ltac:(lia)). specialize (M ltac:(lia)).
    assert ((j + 1) * batch_size
            <= batch_size
               * ((List.length ids + batch_size - 1) / batch_size))%nat by nia.
    lia. }
  lia.
Qed.

Lemma batches_cover_all_ids_witness :
  (0 < 2)%nat /\ List.concat (batches 2 [1%Z; 2%Z; 3%Z; 4%Z; 5%Z])
                 = [1%Z; 2%Z; 3%Z; 4%Z; 5%Z].
Proof.
  split; [lia|].
  exact (proj1 (batches_cover_all_ids 2 [1%Z; 2%Z; 3%Z; 4%Z; 5%Z]
                  (Nat.lt_0_succ 1))).
Defined.

End BatchFacts.

(* ================================================================= *)
(** ** The point-total summary: record and bias *)

Module MnfMoreFacts.
Import Num NumFacts Perf Tab2.

Lemma count_three {A} (f g h : A -> bool) (l : list A) :
  (forall x, In x l ->
     (f x = true /\ g x = false /\ h x = false)
     \/ (f x = false /\ g x = true /\ h x = false)
     \/ (f x = false /\ g x = false /\ h x = true)) ->
  (count f l + count g l + count h l = List.length l)%nat.
Proof.
  unfold count. induction l as [|x l IH]; intros H; [reflexivity|].
  simpl. specialize (IH (fun y Hy => H y (or_intror Hy))).
  destruct (H x (or_introl eq_refl)) as [(-> & -> & ->) | [(-> & -> & ->) | (-> & -> & ->)]];
    simpl; lia.
Qed.

Lemma summary_inv (df : list perf_row) (s : summary) :
  mnf_summary df = Summary s ->
  stats_df df <> [] /\
  mae_user s = mean (map abs_err_user (stats_df df)) /\
  mae_median s = mean (map abs_err_median (stats_df df)) /\
  me_user s = mean (map bias_user (stats_df df)) /\
  edge_pct (mae_user s) (mae_median s) = Some (edge s) /\
  wins s = count (fun x => Qlt_bool (abs_err_user x) (abs_err_median x))
                 (stats_df df) /\
  losses s = count (fun x => Qlt_bool (abs_err_median x) (abs_err_user x))
                   (stats_df df) /\
  ties s = count (fun x => Qeq_bool (abs_err_user x) (abs_err_median x))
                 (stats_df df).
Proof.
  unfold mnf_summary. destruct (stats_df df) as [|x st]; [discriminate|].
  destruct (edge_pct _ _) as [e|] eqn:E; [|discriminate].
  intros H. injection H as <-. simpl.
  repeat split; try reflexivity; try discriminate. exact E.
Qed.

(** X15.  Every admitted game is a win, a loss or a tie against the median,
    and only one of them: the three figures of the record add up to
    the number of admitted games. *)
Theorem record_counts_every_game (df : list perf_row) (s : summary) :
  mnf_summary df = Summary s ->
  (wins s + losses s + ties s = List.length (stats_df df))%nat.
Proof.
  intros H. apply summary_inv in H.
  destruct H as (_ & _ & _ & _ & _ & -> & -> & ->).
  apply count_three. intros x _.
  destruct (Qlt_bool_spec (abs_err_user x) (abs_err_median x));
    destruct (Qlt_bool_spec (abs_err_median x) (abs_err_user x));
    destruct (Qeq_bool_spec (abs_err_user x) (abs_err_median x));
    try (exfalso; lra); auto.
Qed.

Lemma Qsum_abs_bounds (l : list Q) :
  - Qsum (map Qabs l) <= Qsum l <= Qsum (map Qabs l).
Proof.
  induction l as [|x l IH]; simpl; [split; lra|].
  pose proof (Qle_Qabs x). pose proof (Qle_Qabs (- x)) as H1.
  rewrite Qabs_opp in H1. split; lra.
Qed.

(** X16.  The signed mean error never exceeds the mean absolute error in
    size, and the mean absolute error is not negative. *)
Theorem bias_within_mae (df : list perf_row) (s : summary) :
  mnf_summary df = Summary s ->
  Qabs (me_user s) <= mae_user s /\ 0 <= mae_user s /\ 0 <= mae_median s.
Proof.
  intros H. apply summary_inv in H.
  destruct H as (Hne & -> & -> & -> & _).
  assert (Hmap : map abs_err_user (stats_df df)
                 = map Qabs (map bias_user (stats_df df))).
  { rewrite map_map. reflexivity. }
  set (st := stats_df df) in *.
  assert (Hn : 0 < inject_Z (Z.of_nat (List.length (map bias_user st)))).
  { change 0 with (inject_Z 0). rewrite <- Zlt_Qlt, length_map.
    destruct st; [congruence | simpl; lia]. }
  split; [|split].
  - rewrite Hmap. unfold mean. rewrite !length_map in *.
    pose proof (Qsum_abs_bounds (map bias_user st)) as [B1 B2].
    apply Qabs_Qle_condition. split.
    + apply Qle_shift_div_l; [exact Hn|].
      setoid_replace
        (- (Qsum (map Qabs (map bias_user st))
            / inject_Z (Z.of_nat (List.length st)))
         * inject_Z (Z.of_nat (List.length st)))
        with (- Qsum (map Qabs (map bias_user st))); [exact B1|].
      field. lra.
    + apply Qle_shift_div_r; [exact Hn|].
      setoid_replace
        (Qsum (map Qabs (map bias_user st))
         / inject_Z (Z.of_nat (List.length st))
         * inject_Z (Z.of_nat (List.length st)))
        with (Qsum (map Qabs (map bias_user st))); [exact B2|].
      field. lra.
  - apply mean_nonneg. intros x Hx. apply in_map_iff in Hx.
    destruct Hx as (y & <- & _). apply Qabs_nonneg.
  - apply MnfFacts.mae_median_nonneg.
Qed.

End MnfMoreFacts.

(* ================================================================= *)
(** ** The performance frame, row by row *)

Module FrameFacts.
Import Num NumFacts Perf Tab2 MergeFacts.

(** Everything a row of the joined frame owes to its game, its pick
    and the consensus. *)
Lemma join_all_row is_median df_games df_picks df_consensus df_pool_medians r :
  In r (join_all is_median df_games df_picks df_consensus df_pool_medians) ->
  exists p,
    In (the_game r) df_games /\ In p df_picks /\
    dp_game_id p = game_id (the_game r) /\
    pick_home r = dp_pick_home p /\
    pick_made r = dp_pick_made p /\
    tot_if_picked r = dp_tot_if_picked p /\
    (is_median = true -> pool_median_total r = tot_if_picked r) /\
    (df_consensus = [] -> home_pick_pct r = Some 50) /\
    (df_consensus <> [] ->
     match home_pick_pct r with
     | Some v => exists c, In c df_consensus
                           /\ c_game_id c = game_id (the_game r)
                           /\ c_home_pick_pct c = Some v
     | None => True
     end).
Proof.
  unfold join_all. intros H. apply in_map_iff in H.
  destruct H as ([[[g p] om] oc] & <- & H). simpl.
  exists p.
  set (wm := if negb is_median && negb (is_empty df_pool_medians)
             then _ else _) in H.
  assert (Hm : In ((g, p), om) wm /\
               (df_consensus = [] -> oc = Some 50) /\
               (df_consensus <> [] ->
                match oc with
                | Some v => exists c, In c df_consensus
                                      /\ c_game_id c = game_id g
                                      /\ c_home_pick_pct c = Some v
                | None => True
                end)).
  { destruct df_consensus as [|c0 cs] eqn:Ec.
    - simpl in H. apply in_map_iff in H. destruct H as (y & Heq & H).
      inversion Heq; subst. split; [exact H|]. split; [reflexivity | congruence].
    - rewrite <- Ec in *. assert (Hne : is_empty df_consensus = false)
        by (rewrite Ec; reflexivity).
      rewrite Hne in H. simpl in H. apply in_map_iff in H.
      destruct H as ([y oc'] & Heq & H). simpl in Heq. inversion Heq; subst y.
      apply merge_left_elim in H. destruct H as [H Hoc]. simpl in Hoc.
      split; [exact H|]. split; [rewrite Ec; discriminate|]. intros _.
      destruct oc' as [c|]; simpl in *; subst oc.
      + destruct (c_home_pick_pct c) as [v|] eqn:Ev; [|exact I].
        exists c. destruct Hoc. auto.
      + exact I. }
  destruct Hm as (Hm & Hc1 & Hc2).
  assert (Hi : In (g, p) (merge_inner game_id dp_game_id df_games df_picks)
               /\ (is_median = true -> om = dp_tot_if_picked p)).
  { subst wm. destruct is_median; simpl in Hm.
    - apply in_map_iff in Hm. destruct Hm as (y & Heq & Hm).
      inversion Heq; subst. auto.
    - destruct (negb (is_empty df_pool_medians)).
      + apply in_map_iff in Hm. destruct Hm as ([y om'] & Heq & Hm).
        simpl in Heq. inversion Heq; subst.
        apply merge_left_elim in Hm. split; [tauto | discriminate].
      + apply in_map_iff in Hm. destruct Hm as (y & Heq & Hm).
        inversion Heq; subst. split; [exact Hm | discriminate]. }
  destruct Hi as [Hi Hmed]. apply merge_inner_elim in Hi.
  destruct Hi as (Hg & Hp & Hk). repeat split; auto.
Qed.

Lemma performance_frame_cases client user_id seasons r :
  In r (get_user_performance_data client user_id seasons) ->
  exists be,
    client = Some be /\
    let df_games := games_query be seasons in
    let df_consensus := fetch_consensus be (map game_id df_games) in
    (user_id = Median_Picker /\ df_consensus <> [] /\
     In r (join_all true df_games
                    (median_picks df_games df_consensus
                                  (get_mnf_pool_data be seasons))
                    df_consensus (get_mnf_pool_data be seasons)))
    \/ (user_id <> Median_Picker /\
        In r (join_all false df_games
                       (named_picks (picks_query be user_id
                                                 (map game_id df_games)))
                       df_consensus (get_mnf_pool_data be seasons))).
Proof.
  unfold get_user_performance_data. destruct client as [be|]; [|intros []].
  intros H. exists be. split; [reflexivity|]. cbv zeta.
  destruct (is_empty (games_query be seasons)); [destruct H|].
  destruct (String.eqb_spec user_id Median_Picker) as [-> | Hne].
  - destruct (is_empty (fetch_consensus be _)) eqn:E; [destruct H|].
    left. apply is_empty_false in E. auto.
  - destruct (is_empty (picks_query be user_id _)); [destruct H|].
    right. auto.
Qed.

(** X17.  Every row of a named user's frame stems from a pick of that user
    in the pick table that was made and not overwritten, on a game of
    the selected seasons that is not a tie against the spread. *)
Theorem named_rows_are_valid_picks (be : backend) (user_id : string)
    (seasons : list Z) (r : perf_row) :
  user_id <> Median_Picker ->
  In r (get_user_performance_data (Some be) user_id seasons) ->
  exists p,
    In p (table_pick be) /\
    p_username p = user_id /\
    p_game_id p = game_id (the_game r) /\
    p_pick_made p = true /\ p_pick_overwritten p = false /\
    pick_home r = p_pick_home p /\ pick_made r = true /\
    tot_if_picked r = option_map inject_Z (p_tot_if_picked p) /\
    In (the_game r) (table_game be) /\
    mem_Z (season (the_game r)) seasons = true /\
    tie_spread (the_game r) = false.
Proof.
  intros Hne H. apply performance_frame_cases in H.
  destruct H as (be' & Heq & H). injection Heq as <-. cbv zeta in H.
  destruct H as [(Hu & _) | (_ & H)]; [contradiction|].
  apply join_all_row in H.
  destruct H as (dp & Hg & Hdp & Hk & Hph & Hpm & Htot & _).
  unfold named_picks in Hdp. apply in_map_iff in Hdp.
  destruct Hdp as (p & <- & Hp). simpl in *.
  unfold picks_query in Hp. apply filter_In in Hp. destruct Hp as [Hp Hf].
  repeat (apply andb_true_iff in Hf; destruct Hf as [Hf ?]).
  apply DataFacts.games_query_no_tie in Hg. destruct Hg as (Hg & Ht & Hs).
  exists p. repeat split; auto.
  - now apply String.eqb_eq.
  - now apply eqb_prop.
  - now apply eqb_prop.
  - rewrite Hpm. now apply eqb_prop.
Qed.

(** X18.  When the consensus call fails or answers nothing, every row of a
    named user's frame carries a home-pick percentage of 50 and every
    pick is classified Neutral. *)
Theorem no_consensus_all_neutral (be : backend) (user_id : string)
    (seasons : list Z) (r : perf_row) :
  user_id <> Median_Picker ->
  fetch_consensus be (map game_id (games_query be seasons)) = [] ->
  In r (get_user_performance_data (Some be) user_id seasons) ->
  home_pick_pct r = Some 50 /\ get_herd_status r = Neutral.
Proof.
  intros Hne Hc H. apply performance_frame_cases in H.
  destruct H as (be' & Heq & H). injection Heq as <-. cbv zeta in H.
  destruct H as [(Hu & _) | (_ & H)]; [contradiction|].
  apply join_all_row in H.
  destruct H as (dp & _ & _ & _ & _ & _ & _ & _ & H50 & _).
  specialize (H50 Hc). split; [exact H50|].
  unfold get_herd_status. rewrite H50. destruct (pick_home r); reflexivity.
Qed.

Lemma count_none {A} (f : A -> bool) (l : list A) :
  (forall x, In x l -> f x = false) -> count f l = 0%nat.
Proof.
  unfold count. induction l as [|x l IH]; intros Hf; [reflexivity|].
  simpl. rewrite (Hf x (or_introl eq_refl)). apply IH.
  intros y Hy. apply Hf. now right.
Qed.

Lemma count_all {A} (f : A -> bool) (l : list A) :
  (forall x, In x l -> f x = true) -> count f l = List.length l.
Proof.
  unfold count. induction l as [|x l IH]; intros Hf; [reflexivity|].
  simpl. rewrite (Hf x (or_introl eq_refl)). simpl. f_equal. apply IH.
  intros y Hy. apply Hf. now right.
Qed.

(** X19.  In the Median Picker's frame the forecast and the pool median are
    the same column; so its point-total summary, when there is one,
    shows equal errors, an edge of 0 and a record made of ties only. *)
Theorem median_picker_has_no_edge (be : backend) (seasons : list Z) :
  let df := get_user_performance_data (Some be) Median_Picker seasons in
  (forall r, In r df -> pool_median_total r = tot_if_picked r) /\
  (forall s, mnf_summary df = Summary s ->
             mae_user s = mae_median s /\ edge s == 0 /\
             wins s = 0%nat /\ losses s = 0%nat /\
             ties s = List.length (stats_df df)).
Proof.
  cbv zeta.
  set (df := get_user_performance_data (Some be) Median_Picker seasons).
  assert (Hcol : forall r, In r df -> pool_median_total r = tot_if_picked r).
  { intros r H. apply performance_frame_cases in H.
    destruct H as (be' & Heq & H). injection Heq as <-. cbv zeta in H.
    destruct H as [(_ & _ & H) | (Hu & _)]; [|congruence].
    apply join_all_row in H.
    destruct H as (dp & _ & _ & _ & _ & _ & _ & Hm & _). now apply Hm. }
  split; [exact Hcol|]. intros s Hs.
  assert (Hst : forall x, In x (stats_df df) ->
                          s_tot_if_picked x = s_pool_median_total x).
  { intros x Hx. unfold stats_df in Hx. apply in_flat_map in Hx.
    destruct Hx as (r & Hr & Hx). specialize (Hcol r Hr).
    destruct (mnf (the_game r) && (0 <? actual_total r)%Z); [|destruct Hx].
    rewrite Hcol in Hx.
    destruct (tot_if_picked r) as [t|]; [|destruct Hx].
    destruct Hx as [<- | []]. reflexivity. }
  assert (Herr : forall x, In x (stats_df df) ->
                           abs_err_user x = abs_err_median x).
  { intros x Hx. unfold abs_err_user, abs_err_median. now rewrite (Hst x Hx). }
  apply MnfMoreFacts.summary_inv in Hs.
  destruct Hs as (_ & Hu & Hm & _ & He & Hw & Hl & Ht).
  assert (Hmaps : map abs_err_user (stats_df df)
                  = map abs_err_median (stats_df df))
    by (apply map_ext_in; exact Herr).
  assert (Hmae : mae_user s = mae_median s) by (rewrite Hu, Hm, Hmaps; reflexivity).
  pose proof (fun f => count_none f (stats_df df)) as Hzero.
  assert (Hw0 : wins s = 0%nat).
  { rewrite Hw. apply Hzero. intros x Hx. rewrite (Herr x Hx).
    destruct (Qlt_bool_spec (abs_err_median x) (abs_err_median x));
      [lra | reflexivity]. }
  assert (Hl0 : losses s = 0%nat).
  { rewrite Hl. apply Hzero. intros x Hx. rewrite (Herr x Hx).
    destruct (Qlt_bool_spec (abs_err_median x) (abs_err_median x));
      [lra | reflexivity]. }
  assert (Ht0 : ties s = List.length (stats_df df)).
  { rewrite Ht. apply count_all. intros x Hx. rewrite (Herr x Hx).
    apply Qeq_bool_refl. }
  split; [exact Hmae|].
  split; [|split; [exact Hw0 | split; [exact Hl0 | exact Ht0]]].
  rewrite Hmae in He. unfold edge_pct in He.
  destruct (Qlt_bool_spec 0 (mae_median s)) as [Hpos | _].
  - rewrite fdiv_some in He by lra. simpl in He. injection He as <-.
    field. lra.
  - injection He as <-. reflexivity.
Qed.

End FrameFacts.

(* ================================================================= *)
(** ** Team breakdown *)

Module TeamFacts.
Import Num NumFacts Perf Tab2 Tab2b Totals.

Lemma update_keys t f d : map fst (update t f d) = map fst d.
Proof.
  unfold update. rewrite map_map. apply map_ext. intros [k v]. simpl.
  destruct (String.eqb k t); reflexivity.
Qed.

Lemma update_In t f d k s :
  In (k, s) (update t f d) ->
  exists s0, In (k, s0) d /\ s = if String.eqb k t then f s0 else s0.
Proof.
  unfold update. intros H. apply in_map_iff in H.
  destruct H as ([k0 v0] & Heq & H). simpl in Heq.
  destruct (String.eqb k0 t) eqn:E; inversion Heq; subst.
  - exists v0. rewrite E. auto.
  - exists s. rewrite E. auto.
Qed.

Lemma update_absent t f d : ~ In t (map fst d) -> update t f d = d.
Proof.
  unfold update. induction d as [|[k v] d IH]; intros H; [reflexivity|].
  simpl. destruct (String.eqb_spec k t) as [-> | Hne].
  - exfalso. apply H. now left.
  - f_equal. apply IH. intros Hin. apply H. now right.
Qed.

Lemma update_sum (m : team_stat -> Z) (delta : Z) t f d :
  NoDup (map fst d) -> In t (map fst d) ->
  (forall s, m (f s) = (m s + delta)%Z) ->
  over_teams m (update t f d) = (over_teams m d + delta)%Z.
Proof.
  unfold over_teams. intros Hnd Hin Hm.
  induction d as [|[k v] d IH]; [destruct Hin|].
  simpl in Hnd. inversion Hnd as [|? ? Hk Hnd']; subst.
  destruct (String.eqb_spec k t) as [-> | Hne].
  - change (update t f ((t, v) :: d))
      with ((if String.eqb t t then (t, f v) else (t, v)) :: update t f d).
    rewrite String.eqb_refl, (update_absent t f d Hk). simpl. rewrite Hm. lia.
  - change (update t f ((k, v) :: d))
      with ((if String.eqb k t then (k, f v) else (k, v)) :: update t f d).
    destruct (String.eqb_spec k t) as [E | _]; [contradiction|].
    simpl. rewrite IH; [lia | exact Hnd' |].
    destruct Hin as [E | Hin]; [simpl in E; contradiction | exact Hin].
Qed.

Lemma team_step_In d r k s :
  In (k, s) (team_step d r) ->
  exists s0, In (k, s0) d /\ field_le s0 s /\
             total_games s
             = (total_games s0
                + Z_of_bool (String.eqb (home_team_id (the_game r)) k)
                + Z_of_bool (String.eqb (away_team_id (the_game r)) k))%Z.
Proof.
  unfold team_step. intros H.
  destruct (pick_home r);
    apply update_In in H; destruct H as (s1 & H & ->);
    apply update_In in H; destruct H as (s0 & H & ->);
    exists s0; (split; [exact H|]);
    rewrite (String.eqb_sym (home_team_id (the_game r)) k),
            (String.eqb_sym (away_team_id (the_game r)) k);
    destruct (String.eqb k (home_team_id (the_game r)));
    destruct (String.eqb k (away_team_id (the_game r)));
    destruct (user_won r);
    unfold field_le, total_games, inc_for_win, inc_for_loss,
           inc_against_win, inc_against_loss; simpl; lia.
Qed.

Lemma team_fold_In l d k s :
  In (k, s) (fold_left team_step l d) ->
  exists s0, In (k, s0) d /\ field_le s0 s /\
             total_games s = (total_games s0 + appearances k l)%Z.
Proof.
  revert d s. induction l as [|r l IH]; intros d s H.
  - exists s. split; [exact H|]. unfold field_le, appearances. simpl.
    repeat split; lia.
  - simpl in H. apply IH in H. destruct H as (s1 & H & Hle1 & Ht1).
    apply team_step_In in H. destruct H as (s0 & H & Hle0 & Ht0).
    exists s0. split; [exact H|]. split.
    + unfold field_le in *. lia.
    + unfold appearances in *. simpl. lia.
Qed.

Lemma team_step_keys d r : map fst (team_step d r) = map fst d.
Proof.
  unfold team_step. destruct (pick_home r); rewrite !update_keys; reflexivity.
Qed.

Lemma team_fold_keys l d : map fst (fold_left team_step l d) = map fst d.
Proof.
  revert d. induction l as [|r l IH]; intros d; [reflexivity|].
  simpl. rewrite IH. apply team_step_keys.
Qed.

Lemma team_step_sum (m : team_stat -> Z) (on_for on_against : Z) d r :
  NoDup (map fst d) ->
  In (home_team_id (the_game r)) (map fst d) ->
  In (away_team_id (the_game r)) (map fst d) ->
  (forall s, m (inc_for_win s) = (m s + on_for)%Z) ->
  (forall s, m (inc_for_loss s) = (m s + on_for)%Z) ->
  (forall s, m (inc_against_win s) = (m s + on_against)%Z) ->
  (forall s, m (inc_against_loss s) = (m s + on_against)%Z) ->
  over_teams m (team_step d r) = (over_teams m d + on_for + on_against)%Z.
Proof.
  intros Hnd Hh Ha M1 M2 M3 M4. unfold team_step.
  destruct (pick_home r), (user_won r);
    (rewrite (update_sum m on_against);
     [rewrite (update_sum m on_for); [lia | assumption | assumption | assumption]
     | rewrite update_keys; assumption
     | rewrite update_keys; assumption
     | assumption]).
Qed.

Lemma team_fold_sum (m : team_stat -> Z) (on_for on_against : Z) l d :
  NoDup (map fst d) ->
  (forall r, In r l -> In (home_team_id (the_game r)) (map fst d)
                       /\ In (away_team_id (the_game r)) (map fst d)) ->
  (forall s, m (inc_for_win s) = (m s + on_for)%Z) ->
  (forall s, m (inc_for_loss s) = (m s + on_for)%Z) ->
  (forall s, m (inc_against_win s) = (m s + on_against)%Z) ->
  (forall s, m (inc_against_loss s) = (m s + on_against)%Z) ->
  over_teams m (fold_left team_step l d)
  = (over_teams m d + (on_for + on_against) * Z.of_nat (List.length l))%Z.
Proof.
  intros Hnd Hin M1 M2 M3 M4. revert d Hnd Hin.
  induction l as [|r l IH]; intros d Hnd Hin.
  - simpl. lia.
  - simpl fold_left. rewrite IH.
    + destruct (Hin r (or_introl eq_refl)) as [Hh Ha].
      rewrite (team_step_sum m on_for on_against) by assumption.
      simpl List.length. lia.
    + rewrite team_step_keys. exact Hnd.
    + intros r' Hr'. rewrite team_step_keys. apply Hin. now right.
Qed.

Lemma all_teams_In (df : list perf_row) (r : perf_row) :
  In r df ->
  In (home_team_id (the_game r)) (all_teams df)
  /\ In (away_team_id (the_game r)) (all_teams df).
Proof.
  intros H. unfold all_teams. rewrite !nodup_In, !in_app_iff. split.
  - left. apply in_map_iff. exists r. auto.
  - right. apply in_map_iff. exists r. auto.
Qed.

Lemma Z_of_bool_range (b : bool) : (0 <= Z_of_bool b <= 1)%Z.
Proof. destruct b; simpl; lia. Qed.

Lemma appearances_nonneg (df : list perf_row) (t : string) :
  (0 <= appearances t df)%Z.
Proof.
  unfold appearances. induction df as [|r df IH]; cbn [map Zsum]; [lia|].
  pose proof (Z_of_bool_range (String.eqb (home_team_id (the_game r)) t)).
  pose proof (Z_of_bool_range (String.eqb (away_team_id (the_game r)) t)).
  lia.
Qed.

Lemma appearances_cons (r : perf_row) (df : list perf_row) (t : string) :
  appearances t (r :: df)
  = (Z_of_bool (String.eqb (home_team_id (the_game r)) t)
     + Z_of_bool (String.eqb (away_team_id (the_game r)) t)
     + appearances t df)%Z.
Proof. reflexivity. Qed.

Lemma appearances_pos (df : list perf_row) (t : string) :
  In t (all_teams df) -> (0 < appearances t df)%Z.
Proof.
  unfold all_teams. rewrite nodup_In, in_app_iff, !in_map_iff.
  intros [(r & E & Hr) | (r & E & Hr)];
    induction df as [|r0 df IH]; try (destruct Hr; fail);
    rewrite appearances_cons;
    pose proof (appearances_nonneg df t);
    pose proof (Z_of_bool_range (String.eqb (home_team_id (the_game r0)) t));
    pose proof (Z_of_bool_range (String.eqb (away_team_id (the_game r0)) t));
    (destruct Hr as [-> | Hr];
     [rewrite E, String.eqb_refl in *; simpl Z_of_bool in *; lia
     | specialize (IH Hr); lia]).
Qed.

Lemma start_keys (df : list perf_row) :
  map fst (map (fun t => (t, no_stat)) (all_teams df)) = all_teams df.
Proof. rewrite map_map. simpl. apply map_id. Qed.

Lemma start_sum (m : team_stat -> Z) (l : list string) :
  m no_stat = 0%Z -> over_teams m (map (fun t => (t, no_stat)) l) = 0%Z.
Proof.
  intros H. unfold over_teams. induction l as [|t l IH]; simpl; [reflexivity|].
  rewrite H. exact IH.
Qed.

Lemma filter_all {A} (f : A -> bool) (l : list A) :
  (forall x, In x l -> f x = true) -> filter f l = l.
Proof.
  induction l as [|x l IH]; intros H; [reflexivity|].
  simpl. rewrite (H x (or_introl eq_refl)). f_equal. apply IH.
  intros y Hy. apply H. now right.
Qed.

Lemma team_entry (df : list perf_row) (t : string) (s : team_stat) :
  In (t, s) (team_stats df) ->
  total_games s = appearances t df /\ (0 < total_games s)%Z /\
  (0 <= for_win s /\ 0 <= for_loss s
   /\ 0 <= against_win s /\ 0 <= against_loss s)%Z.
Proof.
  intros H. assert (Hk : In t (all_teams df)).
  { rewrite <- start_keys, <- (team_fold_keys df). apply in_map_iff.
    exists (t, s). auto. }
  unfold team_stats in H. apply team_fold_In in H.
  destruct H as (s0 & H0 & Hle & Ht).
  apply in_map_iff in H0. destruct H0 as (t' & Heq & _).
  inversion Heq; subst. unfold field_le in Hle. simpl in Hle.
  change (total_games no_stat) with 0%Z in Ht.
  pose proof (appearances_pos df t Hk). repeat split; lia.
Qed.

(** X20.  The team breakdown has one entry per team of the frame; a team's
    four counters add up to the number of its games in the frame, at
    least one, so the filter on played teams drops nothing; over all
    teams the counters add up to twice the number of picks, and the
    "picked for" counters to the number of picks. *)
Theorem team_breakdown_totals (df : list perf_row) :
  map fst (team_stats df) = all_teams df /\
  NoDup (map fst (team_stats df)) /\
  (forall t s, In (t, s) (team_stats df) ->
     total_games s = appearances t df /\ (0 < total_games s)%Z) /\
  df_user_stats df = team_stats df /\
  over_teams total_games (team_stats df)
  = (2 * Z.of_nat (List.length df))%Z /\
  over_teams times_picked_for (team_stats df) = Z.of_nat (List.length df).
Proof.
  assert (Hkeys : map fst (team_stats df) = all_teams df).
  { unfold team_stats. rewrite team_fold_keys. apply start_keys. }
  assert (Hnd : NoDup (map fst (map (fun t => (t, no_stat)) (all_teams df)))).
  { rewrite start_keys. apply NoDup_nodup. }
  assert (Hin : forall r, In r df ->
            In (home_team_id (the_game r))
               (map fst (map (fun t => (t, no_stat)) (all_teams df)))
            /\ In (away_team_id (the_game r))
                  (map fst (map (fun t => (t, no_stat)) (all_teams df)))).
  { intros r Hr. rewrite start_keys. now apply all_teams_In. }
  split; [exact Hkeys|]. split; [rewrite Hkeys; apply NoDup_nodup|].
  split; [intros t s H; destruct (team_entry df t s H) as (H1 & H2 & _); auto|].
  split; [|split].
  - unfold df_user_stats. apply filter_all. intros [t s] H. simpl.
    destruct (team_entry df t s H) as (_ & H2 & _). now apply Z.ltb_lt.
  - unfold team_stats.
    rewrite (team_fold_sum total_games 1 1 df _ Hnd Hin);
      try (intros s; unfold total_games; simpl; lia).
    rewrite start_sum by reflexivity. lia.
  - unfold team_stats.
    rewrite (team_fold_sum times_picked_for 1 0 df _ Hnd Hin);
      try (intros s; unfold times_picked_for; simpl; lia).
    rewrite start_sum by reflexivity. lia.
Qed.

(** X21.  The three percentages shown for a team are always numbers within
    [0, 100]. *)
Theorem team_percentages_in_range (df : list perf_row) (t : string)
    (s : team_stat) :
  In (t, s) (df_user_stats df) ->
  exists p1 p2 p3,
    pct_user_win s = Some p1 /\ pct_team_cover s = Some p2 /\
    pct_picked_for s = Some p3 /\
    0 <= p1 <= 100 /\ 0 <= p2 <= 100 /\ 0 <= p3 <= 100.
Proof.
  intros H. unfold df_user_stats in H. apply filter_In in H.
  destruct H as [H _]. destruct (team_entry df t s H) as (_ & Hpos & Hnn).
  unfold pct_user_win, pct_team_cover, pct_picked_for, calc_pct.
  rewrite !RebinFacts.pct_formula by lia.
  do 3 eexists. repeat (split; [reflexivity|]).
  unfold user_wins, team_covers, times_picked_for, total_games in *.
  repeat split; apply RebinFacts.pct_range; lia.
Qed.

End TeamFacts.

(* ================================================================= *)
(** ** Betting style: the user's picks by spread bucket *)

Module BiasFacts.
Import Num NumFacts Perf Tab2 Tab2b Rebin RebinFacts.

Lemma bias_rows_count (l : list perf_row) (k : Q) (w : Q) :
  Zsum (map total_games (members w k (map bias_row l)))
  = Z.of_nat (List.length (members w k (map bias_row l))).
Proof.
  assert (H : forall rows : list row,
             (forall r, In r rows -> total_games r = 1%Z) ->
             Zsum (map total_games rows) = Z.of_nat (List.length rows)).
  { induction rows as [|r rows IH]; intros Hr; [reflexivity|].
    cbn [map Zsum List.length]. rewrite (Hr r (or_introl eq_refl)), IH.
    - lia.
    - intros r' Hr'. apply Hr. now right. }
  apply H. intros r Hr. apply members_incl in Hr. apply in_map_iff in Hr.
  destruct Hr as (x & <- & _). reflexivity.
Qed.

Lemma ratio_pct_range (n d : Z) :
  (0 <= n <= d)%Z -> (0 < d)%Z ->
  exists p, ratio_pct n d = Some p /\ 0 <= p <= 100.
Proof.
  intros Hn Hd. unfold ratio_pct. rewrite fdiv_some.
  2:{ intros E. unfold Qeq in E. simpl in E. lia. }
  eexists. split; [reflexivity|].
  destruct (pct_range n d Hn) as [H _]. rewrite Z.max_l in H by lia. exact H.
Qed.

(** X22.  For a positive bin size, in the betting-style table every bucket
    counts at least one game,
    so its two percentages, computed without any guard on the divisor,
    are numbers within [0, 100] and the bias lies within [-100, 100];
    and the buckets' game counts add up to the number of filtered
    picks. *)
Theorem user_bias_buckets (spread_filter : Q * Q) (u_bin_size : Q)
    (df : list perf_row) :
  0 < u_bin_size ->
  (forall g, In g (u_grouped spread_filter u_bin_size df) ->
     (0 < g_total_games (u_key g))%Z /\
     exists p c,
       User_Pick_Home_pct g = Some p /\ Actual_Cover_pct g = Some c /\
       Bias_Diff g = Some (p - c) /\
       0 <= p <= 100 /\ 0 <= c <= 100 /\ - (100) <= p - c <= 100) /\
  Zsum (map (fun g => g_total_games (u_key g))
            (u_grouped spread_filter u_bin_size df))
  = Z.of_nat (List.length (df_bias spread_filter df)).
Proof.
  intros _. unfold u_grouped.
  set (rows := map bias_row (df_bias spread_filter df)).
  assert (Hrow : forall r, In r rows ->
            (0 <= total_home_picks r <= total_games r)%Z
            /\ (0 <= total_covers r <= total_games r)%Z).
  { intros r Hr. subst rows. apply in_map_iff in Hr.
    destruct Hr as (x & <- & _). simpl.
    destruct (pick_home x), (home_cover (the_game x)); simpl; lia. }
  split.
  - intros g Hg. apply in_map_iff in Hg. destruct Hg as (g0 & <- & Hg0).
    unfold Bias_Diff. simpl.
    assert (Hpos : (0 < g_total_games g0)%Z).
    { rewrite (groupby_group_sum g_total_games total_games
                 (fun _ _ => eq_refl) (fun _ _ => eq_refl) _ _ _ Hg0).
      subst rows. rewrite bias_rows_count.
      destruct (groupby_keys_from_rows _ _ _ Hg0) as (r & Hr & Hk).
      assert (Hin : In r (members u_bin_size (g_bin_floor g0)
                            (map bias_row (df_bias spread_filter df)))).
      { apply members_In. split; [exact Hr | now symmetry]. }
      destruct (members _ _ _); [destruct Hin | simpl; lia]. }
    assert (Hp : (0 <= g_total_home_picks g0 <= g_total_games g0)%Z).
    { apply (groupby_bounds total_home_picks total_games
               g_total_home_picks g_total_games u_bin_size rows g0); auto.
      intros r Hr. apply Hrow, Hr. }
    assert (Hc : (0 <= g_total_covers g0 <= g_total_games g0)%Z).
    { apply (groupby_bounds total_covers total_games
               g_total_covers g_total_games u_bin_size rows g0); auto.
      intros r Hr. apply Hrow, Hr. }
    split; [exact Hpos|].
    destruct (ratio_pct_range _ _ Hp Hpos) as (p & -> & Hpr).
    destruct (ratio_pct_range _ _ Hc Hpos) as (c & -> & Hcr).
    exists p, c. repeat split; try reflexivity; lra.
  - rewrite map_map. simpl.
    rewrite (groupby_sum g_total_games total_games
               (fun _ _ => eq_refl) (fun _ _ => eq_refl)).
    subst rows. rewrite map_map. simpl. clear Hrow.
    induction (df_bias spread_filter df) as [|x l IH]; [reflexivity|].
    cbn [map Zsum List.length]. rewrite IH. lia.
Qed.

End BiasFacts.

(* ================================================================= *)
(** ** Ingestion of a week sheet *)

Module SheetFacts.
Import Num NumFacts Sheet.

Lemma payload_fields sy wk ht awt hc sc ac ot_val is_mnf p :
  Ingest.upload_pool_data_game sy wk ht awt hc sc ac ot_val is_mnf = Some p ->
  Ingest.season p = sy /\ Ingest.week p = wk /\ Ingest.mnf p = is_mnf /\
  Ingest.home_team_id p = ht /\ Ingest.away_team_id p = awt.
Proof.
  unfold Ingest.upload_pool_data_game.
  destruct (Ingest.to_score hc); [|discriminate].
  destruct (Ingest.to_score ac); [|discriminate].
  destruct (Ingest.to_float 0 sc); [|discriminate].
  intros H. injection H as <-. simpl. auto.
Qed.

Lemma last_filter_seq (f : nat -> bool) (a n c : nat) :
  In c (filter f (seq a n)) -> (c <= last (filter f (seq a n)) 0)%nat.
Proof.
  induction n as [|n IH]; [intros []|].
  rewrite seq_S, filter_app. simpl filter.
  destruct (f (a + n)%nat) eqn:E.
  - rewrite last_last. intros H. apply in_app_or in H.
    destruct H as [H | [<- | []]]; [|lia].
    apply filter_In in H. destruct H as [H _]. apply in_seq in H. lia.
  - rewrite app_nil_r. exact IH.
Qed.

Lemma NoDup_filter_seq (f : nat -> bool) (a n : nat) :
  NoDup (filter f (seq a n)).
Proof. apply NoDup_filter, seq_NoDup. Qed.

Lemma one_key_once {A} (l : list (nat * A)) (k : nat) :
  NoDup (map fst l) -> (forall x, In x l -> fst x = k) ->
  (List.length l <= 1)%nat.
Proof.
  intros Hnd Hk. destruct l as [|x [|y l]]; simpl; try lia.
  exfalso. inversion Hnd as [|? ? Hx _]; subst. apply Hx. simpl. left.
  rewrite (Hk x), (Hk y); simpl; auto.
Qed.

Lemma NoDup_keys_filter {A} (f : nat * A -> bool) (l : list (nat * A)) :
  NoDup (map fst l) -> NoDup (map fst (filter f l)).
Proof.
  induction l as [|x l IH]; intros Hnd; [constructor|].
  simpl in Hnd. inversion Hnd as [|? ? Hx Hnd']; subst.
  simpl. destruct (f x); simpl; [|now apply IH].
  constructor; [|now apply IH].
  intros H. apply Hx. apply in_map_iff in H.
  destruct H as (y & Hy & H). apply filter_In in H.
  apply in_map_iff. exists y. tauto.
Qed.

Lemma get_id_In (d : list (nat * Z)) (c : nat) (gid : Z) :
  get_id d c = Some gid -> In (c, gid) d.
Proof.
  induction d as [|[c0 g0] d IH]; simpl; [discriminate|].
  destruct (Nat.eqb_spec c0 c) as [-> | _].
  - intros H. injection H as <-. now left.
  - intros H. right. now apply IH.
Qed.

Section Builtins.

Variable str_strip : value -> string.
Variable str_lower : value -> string.
Variable parse_float : string -> option Q.
Variable week_of_title : string -> option Z.
Variable upsert_game : Ingest.game_payload -> option Z.

Lemma sheet_games_In season_year week_num sheet c p :
  In (c, p) (sheet_games str_strip parse_float season_year week_num sheet) <->
  In c (valid_game_cols sheet)
  /\ game_of_col str_strip parse_float season_year week_num sheet c = Some p.
Proof.
  unfold sheet_games. rewrite in_flat_map. split.
  - intros (c0 & Hc & H).
    destruct (game_of_col _ _ _ _ _ c0) as [p0|] eqn:E; [|destruct H].
    destruct H as [H | []]. inversion H; subst. auto.
  - intros [Hc E]. exists c. split; [exact Hc|]. rewrite E. now left.
Qed.

Lemma sheet_games_keys season_year week_num sheet :
  NoDup (map fst (sheet_games str_strip parse_float season_year week_num sheet)).
Proof.
  unfold sheet_games, valid_game_cols.
  pose proof (NoDup_filter_seq
                (fun col_idx => negb (is_None (cell sheet 8 col_idx))
                                && negb (is_None (cell sheet 4 col_idx)))
                4 (max_column sheet - 3)) as Hnd.
  induction Hnd as [|c l Hc Hnd IH]; [constructor|].
  simpl. destruct (game_of_col _ _ _ _ _ c) as [p|]; [|exact IH].
  simpl. constructor; [|exact IH].
  intros H. apply in_map_iff in H. destruct H as ([c' p'] & Heq & H).
  simpl in Heq. subst c'. apply in_flat_map in H.
  destruct H as (c0 & Hc0 & H).
  destruct (game_of_col _ _ _ _ _ c0); [|destruct H].
  destruct H as [H | []]. inversion H; subst. contradiction.
Qed.

(** X23.  Of the games a sheet sends to the store, the one flagged as the
    point-total game is the one of the last game column, the column
    with the greatest index; so at most one game of a week carries the
    flag, and every game carries the season and the week of its
    sheet. *)
Theorem one_mnf_game_per_sheet (season_year week_num : Z) (sheet : worksheet) :
  let gs := sheet_games str_strip parse_float season_year week_num sheet in
  (forall c p, In (c, p) gs ->
     (Ingest.mnf p = true <-> c = mnf_col_index sheet) /\
     (c <= mnf_col_index sheet)%nat /\
     Ingest.season p = season_year /\ Ingest.week p = week_num) /\
  (List.length (filter (fun cp => Ingest.mnf (snd cp)) gs) <= 1)%nat.
Proof.
  cbv zeta.
  assert (Hall : forall c p,
             In (c, p) (sheet_games str_strip parse_float
                                    season_year week_num sheet) ->
             (Ingest.mnf p = true <-> c = mnf_col_index sheet) /\
             (c <= mnf_col_index sheet)%nat /\
             Ingest.season p = season_year /\ Ingest.week p = week_num).
  { intros c p H. apply sheet_games_In in H. destruct H as [Hc E].
    unfold game_of_col in E. apply payload_fields in E.
    destruct E as (Hs & Hw & Hm & _). rewrite Hm. split; [|split; [|auto]].
    - apply Nat.eqb_eq.
    - unfold mnf_col_index, valid_game_cols in *. now apply last_filter_seq. }
  split; [exact Hall|].
  apply (one_key_once _ (mnf_col_index sheet)).
  - apply NoDup_keys_filter, sheet_games_keys.
  - intros [c p] H. apply filter_In in H. destruct H as [H Hm]. simpl in *.
    now apply (Hall c p H).
Qed.

Lemma sheet_game_ids_In season_year week_num sheet c gid :
  In (c, gid) (sheet_game_ids str_strip parse_float upsert_game
                              season_year week_num sheet) ->
  exists p, In (c, p) (sheet_games str_strip parse_float
                                   season_year week_num sheet)
            /\ upsert_game p = Some gid.
Proof.
  unfold sheet_game_ids. rewrite in_flat_map.
  intros ([c0 p] & Hin & H). simpl in H.
  destruct (upsert_game p) as [g|] eqn:E; [|destruct H].
  destruct H as [H | []]. inversion H; subst. exists p. auto.
Qed.

(** X24.  Every pick record of a sheet refers, by a non-zero identifier, to
    a game stored from a column of the same sheet; it belongs to a row
    with a user name; it is overwritten exactly when the row's status
    says "late" and made exactly when the status does not say "no
    picks" and the cell is not empty; a home pick has its cell equal
    to the home team of that game; and a forecast of the total is only
    ever attached to a pick on the point-total game. *)
Theorem sheet_picks_sound (season_year : Z) (sheet : worksheet)
    (up : week_upload) (pk : Perf.pick) :
  process_sheet str_strip str_lower parse_float week_of_title upsert_game
                season_year sheet = Some up ->
  In pk (picks_to_upsert up) ->
  exists week_num row_idx col_idx p,
    week_of_title (title sheet) = Some week_num /\
    In (col_idx, p) (sheet_games str_strip parse_float
                                 season_year week_num sheet) /\
    upsert_game p = Some (Perf.p_game_id pk) /\
    Perf.p_game_id pk <> 0%Z /\
    (8 <= row_idx <= max_row sheet)%nat /\
    truthy (cell sheet row_idx 3) = true /\
    Perf.p_username pk = str_strip (cell sheet row_idx 3) /\
    let status_str := if truthy (cell sheet row_idx 2)
                      then str_lower (cell sheet row_idx 2) else ""%string in
    Perf.p_pick_overwritten pk = contains "late" status_str /\
    Perf.p_pick_made pk
    = negb (contains "no picks" status_str)
      && negb (is_None (cell sheet row_idx col_idx)) /\
    (Perf.p_pick_home pk = true ->
     truthy (cell sheet row_idx col_idx) = true /\
     str_strip (cell sheet row_idx col_idx) = Ingest.home_team_id p) /\
    (Perf.p_tot_if_picked pk <> None -> Ingest.mnf p = true).
Proof.
  unfold process_sheet.
  destruct (week_of_title (title sheet)) as [week_num|]; [|discriminate].
  destruct (valid_game_cols sheet) as [|c0 cs] eqn:Ev; [discriminate|].
  intros H. injection H as <-. simpl picks_to_upsert.
  intros H. apply in_flat_map in H. destruct H as (row_idx & Hrow & H).
  apply in_seq in Hrow. unfold row_picks in H.
  destruct (truthy (cell sheet row_idx 3)) eqn:Eu; simpl in H; [|destruct H].
  apply in_flat_map in H. destruct H as (col_idx & Hcol & H).
  destruct (get_id _ col_idx) as [gid|] eqn:Eg; [|destruct H].
  destruct (Z.eqb_spec gid 0) as [|Hnz]; [destruct H|].
  destruct H as [<- | []]. simpl.
  apply get_id_In, sheet_game_ids_In in Eg. destruct Eg as (p & Hp & Hup).
  exists week_num, row_idx, col_idx, p.
  pose proof Hp as Hp'. apply sheet_games_In in Hp'. destruct Hp' as [_ Egame].
  unfold game_of_col in Egame. apply payload_fields in Egame.
  destruct Egame as (_ & _ & Hm & Hh & _).
  split; [reflexivity|]. split; [exact Hp|]. split; [exact Hup|].
  split; [exact Hnz|]. split; [lia|]. split; [exact Eu|].
  split; [reflexivity|]. cbv zeta.
  split; [reflexivity|]. split; [reflexivity|]. split.
  - intros H. apply andb_true_iff in H. destruct H as [H1 H2].
    split; [exact H1|]. apply String.eqb_eq in H2. now rewrite Hh.
  - intros H. rewrite Hm. unfold tot_points in H.
    destruct (Nat.eqb col_idx (mnf_col_index sheet)); [reflexivity | congruence].
Qed.

End Builtins.

End SheetFacts.

(* ================================================================= *)
(** ** The further theorems at the sample data *)

Module Checks2.
Import Num Perf Tab2 Samples Samples2.

Lemma spread_range_encloses_witness :
  raw_rows <> [] /\
  Tab1.get_spread_range_from_data raw_rows = Some (-6 # 2, 6 # 2) /\
  forall s, In s (Tab1.spreads raw_rows) -> -6 # 2 <= s <= 6 # 2.
Proof.
  assert (Hne : raw_rows <> []) by discriminate.
  split; [exact Hne|]. split; [reflexivity|].
  exact (proj1 (Tab1Facts.spread_range_encloses raw_rows (-6 # 2) (6 # 2)
                  Hne eq_refl)).
Defined.

Lemma full_range_filter_keeps_all_witness :
  Tab1.get_spread_range_from_data raw_rows = Some (-6 # 2, 6 # 2) /\
  Tab1.df_filtered (-6 # 2, 6 # 2) raw_rows = Tab1.with_spread raw_rows.
Proof.
  split; [reflexivity|].
  exact (Tab1Facts.full_range_filter_keeps_all raw_rows (-6 # 2, 6 # 2) eq_refl).
Defined.



Lemma bucket_interval_holds_spread_witness :
  In 1 Rebin.bin_size_options /\
  Rebin.bin_floor 1 (Rebin.mkRow (12 # 10) 2 1 1 2)
  <= round1 (12 # 10).
Proof.
  assert (Hw : In 1 Rebin.bin_size_options) by (right; left; reflexivity).
  split; [exact Hw|].
  destruct (BucketFacts.bucket_interval_holds_spread
              1 (Rebin.mkRow (12 # 10) 2 1 1 2) Hw) as (_ & H & _).
  exact H.
Defined.

Lemma chart_order_is_bucket_order_witness :
  In 1 Rebin.bin_size_options /\
  In low_bucket (Rebin.rebin_data two_bucket_rows 1) /\
  In high_bucket (Rebin.rebin_data two_bucket_rows 1) /\
  Rebin.g_home_spread (Rebin.grp low_bucket)
  < Rebin.g_home_spread (Rebin.grp high_bucket).
Proof.
  assert (Hw : In 1 Rebin.bin_size_options) by (right; left; reflexivity).
  assert (H1 : In low_bucket (Rebin.rebin_data two_bucket_rows 1))
    by (left; reflexivity).
  assert (H2 : In high_bucket (Rebin.rebin_data two_bucket_rows 1))
    by (right; left; reflexivity).
  split; [exact Hw|]. split; [exact H1|]. split; [exact H2|].
  destruct (ChartOrderFacts.chart_order_is_bucket_order
              1 two_bucket_rows low_bucket high_bucket Hw H1 H2)
    as (_ & _ & H).
  apply H. reflexivity.
Defined.


Lemma classify_luck_mirrors_witness :
  0 < 5 # 2 /\ ~ 3 == 0 /\
  classify_luck (5 # 2) (- (3)) = Blowout_Loss.
Proof.
  assert (Hn : ~ 3 == 0) by discriminate.
  split; [reflexivity|]. split; [exact Hn|].
  destruct (MirrorFacts.classify_luck_mirrors (5 # 2) 3 eq_refl) as [H _].
  destruct (H Hn) as (H1 & _). apply H1. reflexivity.
Defined.

Lemma pool_luck_percentages_witness :
  Totals.finished global_rows <> [] /\
  Qsum (map snd (Tab2b.pool_display_data (5 # 2) global_rows)) == 100.
Proof.
  assert (Hne : Totals.finished global_rows <> []) by discriminate.
  split; [exact Hne|].
  destruct (PoolFacts.pool_luck_percentages (5 # 2) global_rows) as [_ H].
  destruct (H Hne) as (_ & Hs & _). exact Hs.
Defined.

Lemma herd_distribution_sums_to_one_witness :
  exists c, Baseline.get_global_herd_distribution consensus_rows = Some c /\
            Baseline.herd c + Baseline.contrarian c + Baseline.neutral c == 1.
Proof.
  eexists. split; [reflexivity|].
  apply (proj2 (HerdPoolFacts.herd_distribution_sums_to_one consensus_rows)).
  reflexivity.
Defined.


Lemma record_counts_every_game_witness :
  exists s, mnf_summary [mnf_row] = Summary s /\
            (wins s + losses s + ties s = 1)%nat.
Proof.
  eexists. split; [reflexivity|].
  exact (MnfMoreFacts.record_counts_every_game [mnf_row] _ eq_refl).
Defined.

Lemma bias_within_mae_witness :
  exists s, mnf_summary [mnf_row] = Summary s /\
            Qabs (me_user s) <= mae_user s.
Proof.
  eexists. split; [reflexivity|].
  exact (proj1 (MnfMoreFacts.bias_within_mae [mnf_row] _ eq_refl)).
Defined.

Lemma named_rows_are_valid_picks_witness :
  "alice"%string <> Median_Picker /\
  In alice_row (get_user_performance_data (Some sample_backend) "alice"
                                          [2024%Z]) /\
  exists p, In p (table_pick sample_backend) /\ p_username p = "alice"%string
            /\ p_pick_made p = true /\ p_pick_overwritten p = false.
Proof.
  assert (Hne : "alice"%string <> Median_Picker) by discriminate.
  assert (Hin : In alice_row
                   (get_user_performance_data (Some sample_backend) "alice"
                                              [2024%Z]))
    by (left; reflexivity).
  split; [exact Hne|]. split; [exact Hin|].
  destruct (FrameFacts.named_rows_are_valid_picks
              sample_backend "alice" [2024%Z] alice_row Hne Hin)
    as (p & H1 & H2 & _ & H4 & H5 & _).
  exists p. auto.
Defined.

Lemma no_consensus_all_neutral_witness :
  "alice"%string <> Median_Picker /\
  fetch_consensus backend_no_consensus
    (map game_id (games_query backend_no_consensus [2024%Z])) = [] /\
  In alice_row_50 (get_user_performance_data (Some backend_no_consensus)
                                             "alice" [2024%Z]) /\
  get_herd_status alice_row_50 = Neutral.
Proof.
  assert (Hne : "alice"%string <> Median_Picker) by discriminate.
  assert (Hin : In alice_row_50
                   (get_user_performance_data (Some backend_no_consensus)
                                              "alice" [2024%Z]))
    by (left; reflexivity).
  split; [exact Hne|]. split; [reflexivity|]. split; [exact Hin|].
  exact (proj2 (FrameFacts.no_consensus_all_neutral
                  backend_no_consensus "alice" [2024%Z] alice_row_50
                  Hne eq_refl Hin)).
Defined.

Lemma median_picker_has_no_edge_witness :
  exists s,
    mnf_summary (get_user_performance_data (Some backend_mnf) Median_Picker
                                           [2024%Z]) = Summary s /\
    edge s == 0 /\ wins s = 0%nat /\ losses s = 0%nat.
Proof.
  eexists. split; [reflexivity|].
  destruct (FrameFacts.median_picker_has_no_edge backend_mnf [2024%Z])
    as [_ H].
  destruct (H _ eq_refl) as (_ & He & Hw & Hl & _). auto.
Defined.

Lemma team_breakdown_totals_witness :
  exists s, In ("BUF"%string, s) (Tab2b.team_stats two_picks) /\
            Tab2b.total_games s = Totals.appearances "BUF" two_picks /\
            (0 < Tab2b.total_games s)%Z.
Proof.
  eexists. split; [left; reflexivity|].
  destruct (TeamFacts.team_breakdown_totals two_picks) as (_ & _ & H & _).
  apply H. left. reflexivity.
Defined.

Lemma team_percentages_in_range_witness :
  exists s p, In ("BUF"%string, s) (Tab2b.df_user_stats two_picks) /\
              Tab2b.pct_user_win s = Some p /\ 0 <= p <= 100.
Proof.
  eexists.
  assert (Hin : In ("BUF"%string, Tab2b.mkTeamStat 1 0 0 1)
                   (Tab2b.df_user_stats two_picks)) by (left; reflexivity).
  destruct (TeamFacts.team_percentages_in_range two_picks "BUF" _ Hin)
    as (p1 & _ & _ & H1 & _ & _ & R1 & _).
  exists p1. split; [exact Hin|]. split; [exact H1 | exact R1].
Defined.

Lemma user_bias_buckets_witness :
  0 < 1 # 2 /\
  exists g, In g (Tab2b.u_grouped (-10, 10) (1 # 2) two_picks) /\
            (0 < Rebin.g_total_games (Tab2b.u_key g))%Z.
Proof.
  split; [reflexivity|].
  eexists. split; [left; reflexivity|].
  destruct (BiasFacts.user_bias_buckets (-10, 10) (1 # 2) two_picks eq_refl)
    as [H _].
  apply H. left. reflexivity.
Defined.

Lemma store_herd_distribution_witness :
  exists c,
    Batches.get_global_herd_distribution (Some sample_backend) [2024%Z]
    = Some c /\
    Baseline.herd c + Baseline.contrarian c + Baseline.neutral c == 1.
Proof.
  eexists. split; [reflexivity|].
  exact (proj1 (HerdPoolFacts.store_herd_distribution
                  (Some sample_backend) [2024%Z] _ eq_refl)).
Defined.

Lemma rebin_output_ascending_witness :
  In 1 Rebin.bin_size_options /\
  (List.length (Rebin.rebin_data two_bucket_rows 1)
   <= List.length two_bucket_rows)%nat.
Proof.
  assert (Hw : In 1 Rebin.bin_size_options) by (right; left; reflexivity).
  split; [exact Hw|].
  destruct (BucketFacts.rebin_output_ascending two_bucket_rows 1 Hw)
    as (_ & H & _).
  exact H.
Defined.

Lemma one_mnf_game_per_sheet_witness :
  exists p,
    In (5%nat, p) (Sheet.sheet_games sample_strip sample_float 2024 1
                                     sample_sheet) /\
    Ingest.mnf p = true /\ Ingest.week p = 1%Z.
Proof.
  eexists.
  assert (Hin : In (5%nat,
                    Ingest.mkPayload 2024 1 "KC" "DEN" 24 21 (-3)
                                     false true false true)
                   (Sheet.sheet_games sample_strip sample_float 2024 1
                                      sample_sheet))
    by (right; left; reflexivity).
  split; [exact Hin|].
  destruct (SheetFacts.one_mnf_game_per_sheet
              sample_strip sample_float 2024 1 sample_sheet) as [H _].
  destruct (H _ _ Hin) as (Hm & _ & _ & Hw).
  split; [apply Hm; reflexivity | exact Hw].
Defined.

Lemma sheet_picks_sound_witness :
  exists up p,
    sample_upload = Some up /\
    In alice_mnf_pick (Sheet.picks_to_upsert up) /\
    sample_upsert p = Some 2%Z /\ Ingest.mnf p = true.
Proof.
  assert (H : exists up, sample_upload = Some up
                         /\ In alice_mnf_pick (Sheet.picks_to_upsert up)).
  { eexists. split; [reflexivity|]. right; left; reflexivity. }
  destruct H as (up & Hup & Hin).
  destruct (SheetFacts.sheet_picks_sound
              sample_strip sample_lower sample_float sample_week sample_upsert
              2024 sample_sheet up alice_mnf_pick Hup Hin)
    as (wk & row_idx & col_idx & p & _ & _ & Hid & _ & _ & _ & _ & _ & _ & _ & Htot).
  exists up, p. split; [exact Hup|]. split; [exact Hin|].
  split; [exact Hid|]. apply Htot. discriminate.
Defined.

End Checks2.
